(** * git-lfs: the batch API client of the transfer queue (tq/api.go)

  A shallow embedding of [tqClient.Batch] and of the wire types it
  serialises, together with models of the collaborators that live outside
  the two source files (the lfsapi client, the transfer queue that drives
  [Batch], the git reference helpers exercised by the git package tests). *)

From Stdlib Require Import String Ascii List ZArith Lia Bool Arith Sorted.
Import ListNotations.
Open Scope string_scope.
Open Scope list_scope.

Set Warnings "-register-all".
Set Warnings "-notation-overridden".


(** ** Go values *)

Module Go.

(** A Go slice is either [nil] or an allocated sequence; [len] is 0 for
    both a nil and an empty slice. *)
Definition slice (A : Type) : Type := option (list A).

Definition len {A} (s : slice A) : nat :=
  match s with
  | None => 0
  | Some l => length l
  end.

Definition elems {A} (s : slice A) : list A :=
  match s with
  | None => []
  | Some l => l
  end.

(** [error] values.  A Go [error] interface value is [option error]:
    [None] is [nil]. *)
Inductive error : Type :=
| ErrNew (msg : string)
| ErrWrap (cause : error) (msg : string)
| ErrInvalidStatus (method url : string) (code : Z).

(** [strings.SplitN(s, "?", 2)[0]]: the part of [s] before its first
    question mark (all of [s] when it has none). *)
Fixpoint before_query (s : string) : string :=
  match s with
  | EmptyString => EmptyString
  | String c r => if Ascii.eqb c "?"%char then EmptyString
                  else String c (before_query r)
  end.

(** JSON documents as encoding/json writes them: an object keeps its
    fields in the order of the struct declaration. *)
Inductive json : Type :=
| JNull
| JNumber (n : Z)
| JString (s : string)
| JArray (items : list json)
| JObject (fields : list (string * json)).

Fixpoint assoc {V} (k : string) (kvs : list (string * V)) : option V :=
  match kvs with
  | [] => None
  | (k', v) :: r => if String.eqb k k' then Some v else assoc k r
  end.

Definition field (k : string) (j : json) : option json :=
  match j with
  | JObject fs => assoc k fs
  | _ => None
  end.

Definition keys (j : json) : list string :=
  match j with
  | JObject fs => map fst fs
  | _ => []
  end.

(** A slice field without [omitempty]: a nil slice is written [null]. *)
Definition marshal_slice {A} (f : A -> json) (s : slice A) : json :=
  match s with
  | None => JNull
  | Some l => JArray (map f l)
  end.

(** A slice field tagged [omitempty] is left out when its length is 0. *)
Definition omitempty {A} (k : string) (f : A -> json) (s : slice A)
  : list (string * json) :=
  match len s with
  | O => []
  | S _ => [(k, JArray (map f (elems s)))]
  end.

End Go.

Import Go.

(** ** package api (declared outside the source at hand) *)

Module Api.

Record ObjectError : Type := {
  Code : Z;
  Message : string
}.

(** Modelled from the spec: [api.ObjectResource] is declared in package api,
    which is not part of the sources.  Section 6 gives its wire shape: a
    request object is [{oid, size}], a response object is
    [{oid, size, actions}] or [{oid, error: {code, message}}]. *)
Record ObjectResource : Type := {
  Oid : string;
  Size : Z;
  Actions : list (string * string);
  Error : option ObjectError
}.

Definition marshal_error (e : ObjectError) : json :=
  JObject [("code", JNumber e.(Code)); ("message", JString e.(Message))].

Definition marshal_object (o : ObjectResource) : json :=
  JObject ([("oid", JString o.(Oid)); ("size", JNumber o.(Size))]
           ++ match o.(Actions) with
              | [] => []
              | acts => [("actions",
                          JObject (map (fun a => (fst a, JString (snd a))) acts))]
              end
           ++ match o.(Error) with
              | None => []
              | Some e => [("error", marshal_error e)]
              end).

End Api.

Import Api.

(** ** package tq: api.go *)

Module Tq.

(** [batchRequest], with its JSON tags
    [operation], [objects] and [transfers,omitempty]. *)
Record batchRequest : Type := {
  Operation : string;
  Objects : slice ObjectResource;
  TransferAdapterNames : slice string
}.

(** [batchResponse], with its JSON tags [transfer] and [objects]. *)
Record batchResponse : Type := {
  TransferAdapterName : string;
  RespObjects : slice ObjectResource
}.

(** [&batchResponse{}]: the zero value. *)
Definition zeroResponse : batchResponse :=
  {| TransferAdapterName := EmptyString; RespObjects := None |}.

(** encoding/json on a [batchRequest], following the struct tags. *)
Definition marshal_batchRequest (r : batchRequest) : json :=
  JObject ([("operation", JString r.(Operation));
            ("objects", marshal_slice marshal_object r.(Objects))]
           ++ omitempty "transfers" JString r.(TransferAdapterNames)).

(** *** The lfsapi client *)

Record Endpoint : Type := { Url : string }.

Record httpRequest : Type := {
  Method : string;
  URL : string;
  Body : json
}.

Record httpResponse : Type := {
  StatusCode : Z;
  Payload : string
}.

(** What [Batch] does to the outside world, in program order. *)
Inductive event : Type :=
| EvTraceBatch (files : nat)              (* tracerx: "api: batch %d files" *)
| EvSend (remote : string) (req : httpRequest)   (* DoWithAuth *)
| EvTraceError (e : error)                (* tracerx: "api error: %s" *)
| EvLogResponse (key : string) (res : httpResponse).

(** The embedded [*lfsapi.Client].  Its methods are outside the sources;
    they are the fields of this record, so every statement about [Batch]
    holds whatever they do.  [Answer] is what the transport returns for a
    request, given everything that happened before. *)
Record Client : Type := {
  Endpoints_Endpoint : string -> string -> Endpoint;
  NewRequest_fault : string -> Endpoint -> string -> json -> option error;
  Answer : list event -> string -> httpRequest -> error + httpResponse;
  DecodeJSON : httpResponse -> batchResponse -> batchResponse * option error
}.

(** Modelled from the spec: [lfsapi.Client.NewRequest] is not part of the
    sources.  Section 6: the request is [POST <remote-root>/objects/batch]
    with the JSON document of the body; building it can fail. *)
Definition NewRequest (c : Client) (method : string) (e : Endpoint)
           (suffix : string) (body : json) : error + httpRequest :=
  match c.(NewRequest_fault) method e suffix body with
  | Some err => inl err
  | None => inr {| Method := method;
                   URL := (e.(Url) ++ "/" ++ suffix)%string;
                   Body := body |}
  end.

(** *** Effects: a state monad over the log of events *)

Definition M (A : Type) : Type := list event -> A * list event.

Definition ret {A} (a : A) : M A := fun tr => (a, tr).

Definition bind {A B} (m : M A) (k : A -> M B) : M B :=
  fun tr => let (a, tr') := m tr in k a tr'.

Definition emit (e : event) : M unit := fun tr => (tt, tr ++ [e]).

Declare Scope tq_scope.
Delimit Scope tq_scope with tq.
Notation "x <- m ;; k" := (bind m (fun x => k))
  (at level 61, m at next level, right associativity) : tq_scope.
Notation "m ;;; k" := (bind m (fun _ => k))
  (at level 61, right associativity) : tq_scope.
Open Scope tq_scope.

Definition DoWithAuth (c : Client) (remote : string) (req : httpRequest)
  : M (error + httpResponse) :=
  fun tr => (c.(Answer) tr remote req, tr ++ [EvSend remote req]).

(** *** Batch *)

(** The three results of [Batch] and, since [bReq] is passed by pointer,
    the request as the caller finds it afterwards.  [bReq] is taken to be a
    non-nil pointer (a nil one panics at line 30), and the elements of
    [Objects] are the resources themselves rather than pointers to them. *)
Record BatchReturn : Type := {
  bRes : option batchResponse;
  hRes : option httpResponse;
  err : option error;
  bReqAfter : batchRequest
}.

(** [len(names) == 1 && names[0] == "basic"] *)
Definition only_basic (names : slice string) : bool :=
  match names with
  | Some [n] => String.eqb n "basic"
  | _ => false
  end.

Definition normalize (bReq : batchRequest) : batchRequest :=
  if only_basic bReq.(TransferAdapterNames)
  then {| Operation := bReq.(Operation);
          Objects := bReq.(Objects);
          TransferAdapterNames := None |}
  else bReq.

Definition Batch (c : Client) (remote : string) (bReq : batchRequest)
  : M BatchReturn :=
  let bRes0 := zeroResponse in
  match len bReq.(Objects) with
  | O => ret {| bRes := Some bRes0; hRes := None; err := None;
                bReqAfter := bReq |}
  | S _ =>
    let bReq := normalize bReq in
    let e := c.(Endpoints_Endpoint) bReq.(Operation) remote in
    match NewRequest c "POST" e "objects/batch" (marshal_batchRequest bReq) with
    | inl err0 =>
      ret {| bRes := None; hRes := None;
             err := Some (ErrWrap err0 "batch request");
             bReqAfter := bReq |}
    | inr req =>
      emit (EvTraceBatch (len bReq.(Objects))) ;;;
      r <- DoWithAuth c remote req ;;
      match r with
      | inl err0 =>
        emit (EvTraceError err0) ;;;
        ret {| bRes := None; hRes := None;
               err := Some (ErrWrap err0 "batch response");
               bReqAfter := bReq |}
      | inr res =>
        emit (EvLogResponse "lfs.batch" res) ;;;
        if negb (Z.eqb res.(StatusCode) 200)
        then ret {| bRes := None; hRes := Some res;
                    err := Some (ErrInvalidStatus req.(Method)
                                   (before_query req.(URL))
                                   res.(StatusCode));
                    bReqAfter := bReq |}
        else
          let (bRes1, derr) := c.(DecodeJSON) res bRes0 in
          ret {| bRes := Some bRes1; hRes := Some res; err := derr;
                 bReqAfter := bReq |}
      end
    end
  end.

(** The requests handed to the transport, in order. *)
Fixpoint sent (tr : list event) : list (string * httpRequest) :=
  match tr with
  | [] => []
  | EvSend remote req :: r => (remote, req) :: sent r
  | _ :: r => sent r
  end.

End Tq.

Import Tq.

(** ** The transfer queue that drives [Batch] *)

Module Queue.

(** Modelled from the spec: the transfer queue, its batch splitting, its
    adapters and its report (sections 3, 4.1 to 4.5 and 7) are not part of
    the sources; only [Batch], which they call once per batch, is.  The run
    is modelled sequentially: cancellation, worker scheduling and the
    connection-level abort of section 7 are left out. *)
Inductive Direction : Type := Upload | Download.

Definition operation (d : Direction) : string :=
  match d with
  | Upload => "upload"
  | Download => "download"
  end.

Record ObjectDescriptor : Type := {
  hash : string;
  size : Z;
  path : option string
}.

(** The [{oid, size}] entry sent for an object. *)
Definition resource (o : ObjectDescriptor) : ObjectResource :=
  {| Oid := o.(hash); Size := o.(size); Actions := []; Error := None |}.

Inductive Failure : Type :=
| NegotiationError (cause : error)
| TransferError (cause : error).

Record Result : Type := {
  rhash : string;
  succeeded : bool;
  failure : option Failure;
  bytes : Z
}.

Record Report : Type := {
  Results : list Result;
  SucceededCount : nat;
  FailedCount : nat
}.

Inductive AdapterError : Type :=
| Transient (msg : string)
| NonTransient (msg : string).

(** [Execute(job, sink)]: bytes moved, or an error, at a given attempt. *)
Record Adapter : Type := {
  Execute : ObjectDescriptor -> ObjectResource -> nat -> AdapterError + Z
}.

Record Config : Type := {
  client : Client;
  remote : string;
  direction : Direction;
  adapterNames : list string;
  registry : list (string * Adapter);
  Verify : ObjectDescriptor -> nat -> option error;
  batchLimit : nat;
  retryLimit : nat
}.

(** Modelled from the spec: section 3, duplicate hashes of one submission
    are dropped before negotiation (the queue is not part of the sources);
    the first occurrence stays. *)
Fixpoint dedupe_seen (seen : list string) (objs : list ObjectDescriptor)
  : list ObjectDescriptor :=
  match objs with
  | [] => []
  | o :: r =>
    if existsb (String.eqb o.(hash)) seen then dedupe_seen seen r
    else o :: dedupe_seen (o.(hash) :: seen) r
  end.

Definition dedupe (objs : list ObjectDescriptor) : list ObjectDescriptor :=
  dedupe_seen [] objs.

(** Modelled from the spec: section 4.1, the input is split into batches
    not exceeding a fixed object-count limit (the splitting code is not part
    of the sources): consecutive batches of at most [limit] objects. *)
Fixpoint chunk_fuel {A} (fuel limit : nat) (l : list A) : list (list A) :=
  match fuel with
  | O => []
  | S fuel' =>
    match l with
    | [] => []
    | _ :: _ => firstn limit l :: chunk_fuel fuel' limit (skipn limit l)
    end
  end.

Definition chunk {A} (limit : nat) (l : list A) : list (list A) :=
  chunk_fuel (length l) limit l.

Definition request_for (cfg : Config) (batch : list ObjectDescriptor)
  : batchRequest :=
  {| Operation := operation cfg.(direction);
     Objects := Some (map resource batch);
     TransferAdapterNames := Some cfg.(adapterNames) |}.

(** Modelled from the spec: section 4.1, one request per batch, issued
    sequentially in input order (the caller of [Batch] is not part of the
    sources). *)
Fixpoint negotiate_batches (cfg : Config) (batches : list (list ObjectDescriptor))
  : M (list (list ObjectDescriptor * BatchReturn)) :=
  match batches with
  | [] => ret []
  | b :: rest =>
    r <- Batch cfg.(client) cfg.(remote) (request_for cfg b) ;;
    rs <- negotiate_batches cfg rest ;;
    ret ((b, r) :: rs)
  end.

Definition Negotiate (cfg : Config) (objs : list ObjectDescriptor)
  : M (list (list ObjectDescriptor * BatchReturn)) :=
  negotiate_batches cfg (chunk cfg.(batchLimit) objs).

Definition negotiation_failed (e : error) (o : ObjectDescriptor) : Result :=
  {| rhash := o.(hash); succeeded := false;
     failure := Some (NegotiationError e); bytes := 0 |}.

Definition transfer_failed (e : error) (o : ObjectDescriptor) : Result :=
  {| rhash := o.(hash); succeeded := false;
     failure := Some (TransferError e); bytes := 0 |}.

(** Modelled from the spec: section 4.3, a worker on one job (workers are
    not part of the sources): execute, verify, retry transient errors while
    attempts remain. *)
Fixpoint run_job (cfg : Config) (ad : Adapter) (o : ObjectDescriptor)
         (act : ObjectResource) (left attempt : nat) : Result :=
  match left with
  | O => transfer_failed (ErrNew "retries exhausted") o
  | S left' =>
    match ad.(Execute) o act attempt with
    | inr n =>
      match cfg.(Verify) o attempt with
      | None => {| rhash := o.(hash); succeeded := true;
                   failure := None; bytes := n |}
      | Some e => transfer_failed (ErrWrap e "verification") o
      end
    | inl (Transient _) => run_job cfg ad o act left' (S attempt)
    | inl (NonTransient m) => transfer_failed (ErrNew m) o
    end
  end.

(** The adapter the response selects; none named means the default. *)
Definition selected_adapter (resp : batchResponse) : string :=
  if String.eqb resp.(TransferAdapterName) EmptyString then "basic"
  else resp.(TransferAdapterName).

Definition find_action (h : string) (acts : list ObjectResource)
  : option ObjectResource :=
  find (fun a => String.eqb a.(Oid) h) acts.

(** Modelled from the spec: sections 4.1, 4.2 and 7 (the queue is not part
    of the sources).  A per-object error, an unrecognized adapter name, and
    an object the response does not mention (the report enumerates every
    submitted object) are negotiation errors of that object alone. *)
Definition object_result (cfg : Config) (resp : batchResponse)
           (o : ObjectDescriptor) : Result :=
  match find_action o.(hash) (elems resp.(RespObjects)) with
  | None => negotiation_failed (ErrNew "object missing from batch response") o
  | Some act =>
    match act.(Error) with
    | Some e => negotiation_failed (ErrNew e.(Message)) o
    | None =>
      match assoc (selected_adapter resp) cfg.(registry) with
      | None => negotiation_failed (ErrNew "unrecognized adapter") o
      | Some ad => run_job cfg ad o act cfg.(retryLimit) 0
      end
    end
  end.

(** Modelled from the spec: section 4.1, a failed batch request (the queue
    that consumes [Batch]'s results is not part of the sources) gives every
    object of its batch a negotiation error; otherwise each object gets its
    own outcome. *)
Definition batch_results (cfg : Config)
           (br : list ObjectDescriptor * BatchReturn) : list Result :=
  let (batch, r) := br in
  match r.(err), r.(bRes) with
  | Some e, _ => map (negotiation_failed e) batch
  | None, Some resp => map (object_result cfg resp) batch
  | None, None => map (negotiation_failed (ErrNew "no batch response")) batch
  end.

Definition report_of (rs : list Result) : Report :=
  {| Results := rs;
     SucceededCount := length (filter succeeded rs);
     FailedCount := length (filter (fun r => negb r.(succeeded)) rs) |}.

Inductive State : Type := Idle | Negotiating | Running | Draining | Done.

Record TransferQueue : Type := { state : State }.

Definition NewTransferQueue : TransferQueue := {| state := Idle |}.

Inductive StateError : Type := ErrQueueState (s : State).

(** Modelled from the spec: section 4.3, a run of the queue (not part of the
    sources): dedupe, negotiate batch by batch, transfer, report in
    submission order.  A queue is used once. *)
Definition Enqueue (cfg : Config) (q : TransferQueue)
           (objs : list ObjectDescriptor)
  : M (StateError + TransferQueue * Report) :=
  match q.(state) with
  | Idle =>
    outcomes <- Negotiate cfg (dedupe objs) ;;
    ret (inr ({| state := Done |},
              report_of (flat_map (batch_results cfg) outcomes)))
  | s => ret (inl (ErrQueueState s))
  end.

(** The objects a wire request carries. *)
Definition wire_objects (req : httpRequest) : list json :=
  match field "objects" req.(Body) with
  | Some (JArray items) => items
  | _ => []
  end.

Definition carried (req : httpRequest) : nat := length (wire_objects req).

(** A terminal outcome: success, a negotiation error or a transfer error. *)
Definition explicit_outcome (r : Result) : Prop :=
  (r.(succeeded) = true /\ r.(failure) = None)
  \/ (r.(succeeded) = false /\ exists e, r.(failure) = Some (NegotiationError e))
  \/ (r.(succeeded) = false /\ exists e, r.(failure) = Some (TransferError e)).

End Queue.

(** ** package git: the reference helpers used by its tests *)

Module Git.

(** Modelled from the spec: [CurrentRef] and [RecentBranches] of package git
    (section 6: [CurrentReference] and [RecentBranches]) and the test
    repository helpers are not part of the sources; only their tests are.
    The repository is what the tests build: commits with a date, local
    branches, tags, remotes and the branches pushed to them. *)
Inductive RefType : Type :=
| RefTypeLocalBranch
| RefTypeRemoteBranch
| RefTypeLocalTag
| RefTypeRemoteTag
| RefTypeHEAD
| RefTypeOther.

Record Ref : Type := {
  Name : string;
  Type_ : RefType;
  Sha : string
}.

Record Commit : Type := {
  sha : string;
  date : Z
}.

Record Repo : Type := {
  head : string;
  history : list Commit;
  branches : list (string * Commit);
  tags : list (string * Commit);
  remotes : list string;
  remoteBranches : list (string * string * Commit)
}.

(** A fresh repository: on an unborn [master]. *)
Definition NewRepo : Repo :=
  {| head := "master"; history := []; branches := []; tags := [];
     remotes := []; remoteBranches := [] |}.

Fixpoint set_tip (b : string) (c : Commit) (bs : list (string * Commit))
  : list (string * Commit) :=
  match bs with
  | [] => [(b, c)]
  | (b', c') :: r =>
    if String.eqb b b' then (b, c) :: r else (b', c') :: set_tip b c r
  end.

Fixpoint set_remote_tip (m b : string) (c : Commit)
         (bs : list (string * string * Commit))
  : list (string * string * Commit) :=
  match bs with
  | [] => [(m, b, c)]
  | (m', b', c') :: r =>
    if String.eqb m m' && String.eqb b b' then (m, b, c) :: r
    else (m', b', c') :: set_remote_tip m b c r
  end.

Definition tip (r : Repo) (b : string) : option Commit := assoc b r.(branches).

(** What the tests do to a repository.  [OpTag] is [git tag t]: a
    lightweight tag, a second name for the commit at the current tip. *)
Inductive op : Type :=
| OpCommit (c : Commit)
| OpNewBranch (b : string)
| OpCheckout (b : string)
| OpTag (t : string)
| OpAddRemote (m : string)
| OpPush (m src dst : string).

Definition apply_op (r : Repo) (o : op) : Repo :=
  match o with
  | OpCommit c =>
    {| head := r.(head); history := c :: r.(history);
       branches := set_tip r.(head) c r.(branches);
       tags := r.(tags); remotes := r.(remotes);
       remoteBranches := r.(remoteBranches) |}
  | OpNewBranch b =>
    match tip r b, tip r r.(head) with
    | Some _, _ => r
    | None, Some c =>
      {| head := b; history := r.(history);
         branches := set_tip b c r.(branches);
         tags := r.(tags); remotes := r.(remotes);
         remoteBranches := r.(remoteBranches) |}
    | None, None =>
      {| head := b; history := r.(history); branches := r.(branches);
         tags := r.(tags); remotes := r.(remotes);
         remoteBranches := r.(remoteBranches) |}
    end
  | OpCheckout b =>
    match tip r b with
    | Some _ =>
      {| head := b; history := r.(history); branches := r.(branches);
         tags := r.(tags); remotes := r.(remotes);
         remoteBranches := r.(remoteBranches) |}
    | None => r
    end
  | OpTag t =>
    match tip r r.(head) with
    | Some c =>
      {| head := r.(head); history := r.(history); branches := r.(branches);
         tags := set_tip t c r.(tags); remotes := r.(remotes);
         remoteBranches := r.(remoteBranches) |}
    | None => r
    end
  | OpAddRemote m =>
    {| head := r.(head); history := r.(history); branches := r.(branches);
       tags := r.(tags); remotes := m :: r.(remotes);
       remoteBranches := r.(remoteBranches) |}
  | OpPush m src dst =>
    match tip r src with
    | Some c =>
      if existsb (String.eqb m) r.(remotes)
      then {| head := r.(head); history := r.(history);
              branches := r.(branches); tags := r.(tags);
              remotes := r.(remotes);
              remoteBranches := set_remote_tip m dst c r.(remoteBranches) |}
      else r
    | None => r
    end
  end.

Definition build (ops : list op) : Repo := fold_left apply_op ops NewRepo.

(** Modelled from the spec: [CurrentRef] (section 6, [CurrentReference]) is
    not part of the sources; from its tests, it returns the checked-out
    branch and the commit at its tip, and fails in a repository without
    commits. *)
Definition CurrentRef (r : Repo) : error + Ref :=
  match tip r r.(head) with
  | Some c => inr {| Name := r.(head); Type_ := RefTypeLocalBranch;
                     Sha := c.(sha) |}
  | None => inl (ErrNew "failed to resolve HEAD")
  end.

Definition local_ref (bc : string * Commit) : Ref * Z :=
  ({| Name := fst bc; Type_ := RefTypeLocalBranch; Sha := (snd bc).(sha) |},
   (snd bc).(date)).

Definition remote_ref (mbc : string * string * Commit) : Ref * Z :=
  let '(m, b, c) := mbc in
  ({| Name := (m ++ "/" ++ b)%string; Type_ := RefTypeRemoteBranch;
      Sha := c.(sha) |}, c.(date)).

Definition of_remote (onlyRemote : string) (mbc : string * string * Commit)
  : bool :=
  String.eqb onlyRemote EmptyString || String.eqb (fst (fst mbc)) onlyRemote.

(** Most recent first. *)
Fixpoint insert_by_date (x : Ref * Z) (l : list (Ref * Z)) : list (Ref * Z) :=
  match l with
  | [] => [x]
  | y :: r => if Z.leb (snd y) (snd x) then x :: y :: r
              else y :: insert_by_date x r
  end.

Definition sort_by_date (l : list (Ref * Z)) : list (Ref * Z) :=
  fold_right insert_by_date [] l.

Definition tag_ref (tc : string * Commit) : Ref * Z :=
  ({| Name := fst tc; Type_ := RefTypeLocalTag; Sha := (snd tc).(sha) |},
   (snd tc).(date)).

(** The references that are looked at, with the date of their tip.  The
    test's "new branch & tag but too old" (line 93) has a tag left out for
    its date, as a branch is: tags are looked at too. *)
Definition candidates (r : Repo) (includeRemoteBranches : bool)
           (onlyRemote : string) : list (Ref * Z) :=
  map local_ref r.(branches)
  ++ map tag_ref r.(tags)
  ++ (if includeRemoteBranches
      then map remote_ref (filter (of_remote onlyRemote) r.(remoteBranches))
      else []).

(** A tip later than [since] is recent and one earlier is not.  Neither the
    spec nor the tests say what happens to a tip dated exactly [since]:
    [atSince] tells whether it is kept. *)
Definition recent_enough (atSince : bool) (since d : Z) : bool :=
  Z.ltb since d || (atSince && Z.eqb since d).

Definition recent_dated (r : Repo) (atSince : bool) (since : Z)
           (includeRemoteBranches : bool) (onlyRemote : string)
  : list (Ref * Z) :=
  sort_by_date (filter (fun x => recent_enough atSince since (snd x))
                       (candidates r includeRemoteBranches onlyRemote)).

(** Modelled from the spec: [RecentBranches] (section 6) is not part of the
    sources; from its tests, it returns the references whose tip is recent,
    most recent first: local branches and tags, and the remote branches only
    on request and only of the named remote when one is named. *)
Definition RecentBranches (r : Repo) (atSince : bool) (since : Z)
           (includeRemoteBranches : bool) (onlyRemote : string)
  : list Ref * option error :=
  (map fst (recent_dated r atSince since includeRemoteBranches onlyRemote),
   None).


(** [sort.Sort(test.RefsByName(refs))] *)
Fixpoint insert_by_name (x : Ref) (l : list Ref) : list Ref :=
  match l with
  | [] => [x]
  | y :: r => if String.leb x.(Name) y.(Name) then x :: y :: r
              else y :: insert_by_name x r
  end.

Definition RefsByName (l : list Ref) : list Ref :=
  fold_right insert_by_name [] l.

(** *** The repositories of the tests; dates are days relative to [now]. *)

Definition commit_at (n : string) (d : Z) : Commit := {| sha := n; date := d |}.

Definition current_ref_repo : list op :=
  [ OpCommit (commit_at "c0" 0);
    OpNewBranch "branch2"; OpCommit (commit_at "c1" 0);
    OpCheckout "master"; OpCommit (commit_at "c2" 0);
    OpNewBranch "branch3"; OpCommit (commit_at "c3" 0) ].


Definition recent_branches_repo : list op :=
  [ OpCommit (commit_at "c0" (-20));
    OpNewBranch "excluded_branch"; OpCommit (commit_at "c1" (-15));
    OpTag "excluded_tag";
    OpCheckout "master"; OpCommit (commit_at "c2" (-12));
    OpNewBranch "included_branch"; OpCommit (commit_at "c3" (-6));
    OpNewBranch "included_branch_2"; OpCommit (commit_at "c4" (-3));
    OpCheckout "master"; OpCommit (commit_at "c5" 0);
    OpAddRemote "origin"; OpAddRemote "upstream";
    OpPush "origin" "master" "master";
    OpPush "origin" "excluded_branch" "excluded_branch";
    OpPush "origin" "included_branch" "included_branch";
    OpPush "upstream" "master" "master";
    OpPush "upstream" "included_branch_2" "included_branch_2" ].

End Git.

(** ** Sample clients and requests, used to run the definitions *)

Module Sample.

Definition endpoint_of (operation remote : string) : Endpoint :=
  {| Url := ("https://lfs.example.com/" ++ remote)%string |}.

(** A remote that answers every request with the given status. *)
Definition answering (status : Z) : Client :=
  {| Endpoints_Endpoint := endpoint_of;
     NewRequest_fault := fun _ _ _ _ => None;
     Answer := fun _ _ _ => inr {| StatusCode := status; Payload := "{}" |};
     DecodeJSON := fun _ b => (b, None) |}.

(** A client that cannot build requests. *)
Definition faulty : Client :=
  {| Endpoints_Endpoint := endpoint_of;
     NewRequest_fault := fun _ _ _ _ => Some (ErrNew "bad url");
     Answer := fun _ _ _ => inr {| StatusCode := 200; Payload := "{}" |};
     DecodeJSON := fun _ b => (b, None) |}.

(** A remote that cannot be reached. *)
Definition unreachable : Client :=
  {| Endpoints_Endpoint := endpoint_of;
     NewRequest_fault := fun _ _ _ _ => None;
     Answer := fun _ _ _ => inl (ErrNew "connection refused");
     DecodeJSON := fun _ b => (b, None) |}.

(** A remote whose endpoint URL carries a query string, answering with the
    given status. *)
Definition tokened (status : Z) : Client :=
  {| Endpoints_Endpoint :=
       fun _ _ => {| Url := "https://lfs.example.com/repo?token=s3cret" |};
     NewRequest_fault := fun _ _ _ _ => None;
     Answer := fun _ _ _ => inr {| StatusCode := status; Payload := "{}" |};
     DecodeJSON := fun _ b => (b, None) |}.

(** A remote that answers 200 with a body that does not decode. *)
Definition garbled : Client :=
  {| Endpoints_Endpoint := endpoint_of;
     NewRequest_fault := fun _ _ _ _ => None;
     Answer := fun _ _ _ => inr {| StatusCode := 200; Payload := "{" |};
     DecodeJSON := fun _ b => (b, Some (ErrNew "unexpected end of JSON input")) |}.

Definition object (oid : string) (n : Z) : ObjectResource :=
  {| Oid := oid; Size := n; Actions := []; Error := None |}.

Definition upload (objs : slice ObjectResource) (names : slice string)
  : batchRequest :=
  {| Operation := "upload"; Objects := objs; TransferAdapterNames := names |}.

Definition descriptor (h : string) (n : Z) : Queue.ObjectDescriptor :=
  {| Queue.hash := h; Queue.size := n; Queue.path := None |}.

Definition config (c : Client) (limit : nat) : Queue.Config :=
  {| Queue.client := c; Queue.remote := "origin";
     Queue.direction := Queue.Upload;
     Queue.adapterNames := ["basic"];
     Queue.registry := [];
     Queue.Verify := fun _ _ => None;
     Queue.batchLimit := limit;
     Queue.retryLimit := 3 |}.

End Sample.

(** * Properties of [Batch] *)

(** The request [Batch] builds for a non-empty [bReq], or why it cannot. *)
Definition built (c : Client) (remote : string) (bReq : batchRequest)
  : error + httpRequest :=
  let b := normalize bReq in
  NewRequest c "POST" (c.(Endpoints_Endpoint) b.(Operation) remote)
             "objects/batch" (marshal_batchRequest b).

(** The requests one [Batch] call hands to the transport. *)
Definition issued (c : Client) (remote : string) (bReq : batchRequest)
  : list (string * httpRequest) :=
  match len bReq.(Objects) with
  | O => []
  | S _ => match built c remote bReq with
           | inl _ => []
           | inr req => [(remote, req)]
           end
  end.

Lemma sent_app (a b : list event) : sent (a ++ b) = sent a ++ sent b.
Proof.
  induction a as [|e a IH]; simpl; [reflexivity|].
  destruct e; simpl; rewrite ?IH; reflexivity.
Qed.

Lemma normalize_Operation (b : batchRequest) :
  (normalize b).(Operation) = b.(Operation).
Proof. unfold normalize. destruct (only_basic _); reflexivity. Qed.

Lemma normalize_Objects (b : batchRequest) :
  (normalize b).(Objects) = b.(Objects).
Proof. unfold normalize. destruct (only_basic _); reflexivity. Qed.

Lemma only_basic_spec (names : slice string) :
  only_basic names = true <-> names = Some ["basic"].
Proof.
  unfold only_basic. destruct names as [[|n [|m l]]|]; split;
    try discriminate; intros H.
  - apply String.eqb_eq in H. subst. reflexivity.
  - injection H as ->. reflexivity.
Qed.

(** [Batch] on an empty object list. *)
Lemma Batch_nil (c : Client) (remote : string) (bReq : batchRequest)
      (tr : list event) :
  len bReq.(Objects) = 0 ->
  Batch c remote bReq tr =
  ({| bRes := Some zeroResponse; hRes := None; err := None;
      bReqAfter := bReq |}, tr).
Proof. intros H. unfold Batch. rewrite H. reflexivity. Qed.

(** [Batch] when the request cannot be built. *)
Lemma Batch_unbuilt (c : Client) (remote : string) (bReq : batchRequest)
      (tr : list event) (e : error) :
  len bReq.(Objects) <> 0 ->
  built c remote bReq = inl e ->
  Batch c remote bReq tr =
  ({| bRes := None; hRes := None; err := Some (ErrWrap e "batch request");
      bReqAfter := normalize bReq |}, tr).
Proof.
  intros H Hb. unfold Batch. destruct (len _) eqn:E; [congruence|].
  unfold built in Hb. cbv zeta. rewrite Hb. reflexivity.
Qed.

(** [Batch] when the transport fails. *)
Lemma Batch_unanswered (c : Client) (remote : string) (bReq : batchRequest)
      (tr : list event) (req : httpRequest) (e : error) :
  len bReq.(Objects) <> 0 ->
  built c remote bReq = inr req ->
  c.(Answer) (tr ++ [EvTraceBatch (len bReq.(Objects))]) remote req = inl e ->
  Batch c remote bReq tr =
  ({| bRes := None; hRes := None; err := Some (ErrWrap e "batch response");
      bReqAfter := normalize bReq |},
   tr ++ [EvTraceBatch (len bReq.(Objects)); EvSend remote req;
          EvTraceError e]).
Proof.
  intros H Hb Ha. unfold Batch. destruct (len _) eqn:E; [congruence|].
  unfold built in Hb. cbv zeta. rewrite Hb.
  unfold bind, emit, DoWithAuth, ret. rewrite normalize_Objects, E, Ha.
  rewrite <- !app_assoc. reflexivity.
Qed.

(** [Batch] when the remote answers. *)
Lemma Batch_answered (c : Client) (remote : string) (bReq : batchRequest)
      (tr : list event) (req : httpRequest) (res : httpResponse) :
  len bReq.(Objects) <> 0 ->
  built c remote bReq = inr req ->
  c.(Answer) (tr ++ [EvTraceBatch (len bReq.(Objects))]) remote req = inr res ->
  Batch c remote bReq tr =
  ((if negb (Z.eqb res.(StatusCode) 200)
    then {| bRes := None; hRes := Some res;
            err := Some (ErrInvalidStatus req.(Method) (before_query req.(URL))
                                          res.(StatusCode));
            bReqAfter := normalize bReq |}
    else {| bRes := Some (fst (c.(DecodeJSON) res zeroResponse));
            hRes := Some res;
            err := snd (c.(DecodeJSON) res zeroResponse);
            bReqAfter := normalize bReq |}),
   tr ++ [EvTraceBatch (len bReq.(Objects)); EvSend remote req;
          EvLogResponse "lfs.batch" res]).
Proof.
  intros H Hb Ha. unfold Batch. destruct (len _) eqn:E; [congruence|].
  unfold built in Hb. cbv zeta. rewrite Hb.
  unfold bind, emit, DoWithAuth, ret. rewrite normalize_Objects, E, Ha.
  rewrite <- !app_assoc. simpl.
  destruct (negb _); [reflexivity|].
  destruct (DecodeJSON c res zeroResponse); reflexivity.
Qed.

(** Every call extends the log, and sends exactly [issued]. *)
Lemma Batch_sent (c : Client) (remote : string) (bReq : batchRequest)
      (tr : list event) :
  exists new, snd (Batch c remote bReq tr) = tr ++ new /\
              sent new = issued c remote bReq.
Proof.
  unfold issued. destruct (len bReq.(Objects)) eqn:E.
  - exists []. rewrite Batch_nil by assumption. simpl.
    rewrite app_nil_r. split; reflexivity.
  - assert (Hne : len bReq.(Objects) <> 0) by lia.
    destruct (built c remote bReq) as [e|req] eqn:Hb.
    + exists []. rewrite (Batch_unbuilt c remote bReq tr e Hne Hb). simpl.
      rewrite app_nil_r. split; reflexivity.
    + destruct (c.(Answer) (tr ++ [EvTraceBatch (len bReq.(Objects))]) remote req)
        as [e|res] eqn:Ha.
      * eexists. rewrite (Batch_unanswered c remote bReq tr req e Hne Hb Ha). simpl.
        split; reflexivity.
      * eexists. rewrite (Batch_answered c remote bReq tr req res Hne Hb Ha). simpl.
        split; reflexivity.
Qed.

(** The request as the caller finds it afterwards. *)
Lemma Batch_bReqAfter (c : Client) (remote : string) (bReq : batchRequest)
      (tr : list event) :
  (fst (Batch c remote bReq tr)).(bReqAfter) =
  match len bReq.(Objects) with
  | O => bReq
  | S _ => normalize bReq
  end.
Proof.
  destruct (len bReq.(Objects)) eqn:E.
  - rewrite Batch_nil by assumption. reflexivity.
  - assert (Hne : len bReq.(Objects) <> 0) by lia.
    destruct (built c remote bReq) as [e|req] eqn:Hb.
    + rewrite (Batch_unbuilt c remote bReq tr e Hne Hb). reflexivity.
    + destruct (c.(Answer) (tr ++ [EvTraceBatch (len bReq.(Objects))]) remote req)
        as [e|res] eqn:Ha.
      * rewrite (Batch_unanswered c remote bReq tr req e Hne Hb Ha). reflexivity.
      * rewrite (Batch_answered c remote bReq tr req res Hne Hb Ha). simpl.
        destruct (negb _); reflexivity.
Qed.

Lemma built_inv (c : Client) (remote : string) (bReq : batchRequest)
      (req : httpRequest) :
  built c remote bReq = inr req ->
  req = {| Method := "POST";
           URL := (Url (c.(Endpoints_Endpoint) bReq.(Operation) remote)
                   ++ "/objects/batch")%string;
           Body := marshal_batchRequest (normalize bReq) |}
  /\ c.(NewRequest_fault) "POST" (c.(Endpoints_Endpoint) bReq.(Operation) remote)
        "objects/batch" (marshal_batchRequest (normalize bReq)) = None.
Proof.
  unfold built, NewRequest. cbv zeta. rewrite normalize_Operation.
  destruct (NewRequest_fault _ _ _ _ _); [discriminate|].
  intros H. injection H as <-. split; reflexivity.
Qed.

(** C2: for every batch request whose object list is empty (nil or of
    length 0), [Batch] returns the empty batch response, no HTTP response and
    a nil error; the log of effects is left as it was, so no request is
    built or sent and the remote is not contacted. *)
Theorem Batch_empty_input (c : Client) (remote : string)
        (bReq : batchRequest) (tr : list event) :
  len bReq.(Objects) = 0 ->
  Batch c remote bReq tr =
  ({| bRes := Some zeroResponse; hRes := None; err := None;
      bReqAfter := bReq |}, tr)
  /\ len zeroResponse.(RespObjects) = 0
  /\ sent (snd (Batch c remote bReq tr)) = sent tr.
Proof.
  intros H. rewrite (Batch_nil c remote bReq tr H). repeat split.
Qed.

Lemma Batch_empty_input_witness :
  Batch (Sample.unreachable) "origin" (Sample.upload (Some []) (Some ["basic"])) [] =
  ({| bRes := Some zeroResponse; hRes := None; err := None;
      bReqAfter := Sample.upload (Some []) (Some ["basic"]) |}, [])
  /\ len zeroResponse.(RespObjects) = 0
  /\ sent (snd (Batch (Sample.unreachable) "origin"
                      (Sample.upload (Some []) (Some ["basic"])) [])) = sent [].
Proof. apply Batch_empty_input. reflexivity. Defined.

(** C3: when the adapter-name list of the request is exactly ["basic"],
    every request this call of [Batch] hands to the transport has a body
    with the two fields operation and objects and no transfers field; for a
    non-empty request that can be built, that is the one request sent. *)
Theorem basic_hint_omitted (c : Client) (remote : string)
        (bReq : batchRequest) (tr : list event) :
  bReq.(TransferAdapterNames) = Some ["basic"] ->
  exists new,
    snd (Batch c remote bReq tr) = tr ++ new
    /\ Forall (fun mr => field "transfers" (Body (snd mr)) = None
                         /\ keys (Body (snd mr)) = ["operation"; "objects"])
              (sent new)
    /\ (forall req, len bReq.(Objects) <> 0 ->
                    built c remote bReq = inr req ->
                    sent new = [(remote, req)]).
Proof.
  intros Hn. destruct (Batch_sent c remote bReq tr) as [new [Htr Hs]].
  exists new. split; [exact Htr|]. rewrite Hs. unfold issued. split.
  - destruct (len bReq.(Objects)); [constructor|].
    destruct (built c remote bReq) as [e|req] eqn:Hb; [constructor|].
    apply built_inv in Hb. destruct Hb as [-> _].
    constructor; [|constructor]. simpl.
    unfold normalize. rewrite Hn. simpl. split; reflexivity.
  - intros req Hne Hb. destruct (len bReq.(Objects)); [congruence|].
    rewrite Hb. reflexivity.
Qed.

Lemma basic_hint_omitted_witness :
  exists new,
    snd (Batch (Sample.answering 200) "origin"
               (Sample.upload (Some [Sample.object "a1" 3]) (Some ["basic"])) [])
    = [] ++ new
    /\ Forall (fun mr => field "transfers" (Body (snd mr)) = None
                         /\ keys (Body (snd mr)) = ["operation"; "objects"])
              (sent new)
    /\ (forall req,
           len (Objects (Sample.upload (Some [Sample.object "a1" 3])
                                       (Some ["basic"]))) <> 0 ->
           built (Sample.answering 200) "origin"
                 (Sample.upload (Some [Sample.object "a1" 3]) (Some ["basic"]))
           = inr req ->
           sent new = [("origin", req)]).
Proof. apply basic_hint_omitted. reflexivity. Defined.

(** C10: when the adapter-name list has two or more names, or one name
    other than "basic", every request this call hands to the transport
    carries the whole list, in order, as its transfers field ("basic"
    included when it is one of several); a non-empty request that can be
    built is sent as that one request, and the caller's list is untouched. *)
Theorem other_hints_verbatim (c : Client) (remote : string)
        (bReq : batchRequest) (tr : list event) (names : list string) :
  bReq.(TransferAdapterNames) = Some names ->
  (2 <= length names \/ exists n, names = [n] /\ n <> "basic") ->
  exists new,
    snd (Batch c remote bReq tr) = tr ++ new
    /\ Forall (fun mr => field "transfers" (Body (snd mr))
                         = Some (JArray (map JString names)))
              (sent new)
    /\ (forall req, len bReq.(Objects) <> 0 ->
                    built c remote bReq = inr req ->
                    sent new = [(remote, req)])
    /\ (bReqAfter (fst (Batch c remote bReq tr))).(TransferAdapterNames)
       = Some names.
Proof.
  intros Hn Hcase.
  assert (Hob : only_basic (Some names) = false).
  { destruct (only_basic (Some names)) eqn:E; [|reflexivity].
    apply only_basic_spec in E. injection E as ->.
    destruct Hcase as [H|[n [H Hb]]]; [simpl in H; lia|].
    injection H as <-. congruence. }
  assert (Hnorm : normalize bReq = bReq).
  { unfold normalize. rewrite Hn, Hob. reflexivity. }
  assert (Hlen : exists k, length names = S k).
  { destruct Hcase as [H|[n [-> _]]].
    - destruct names; simpl in *; [lia|eauto].
    - simpl. eauto. }
  destruct (Batch_sent c remote bReq tr) as [new [Htr Hs]].
  exists new. split; [exact Htr|]. rewrite Hs. unfold issued. repeat split.
  - destruct (len bReq.(Objects)); [constructor|].
    destruct (built c remote bReq) as [e|req] eqn:Hb; [constructor|].
    apply built_inv in Hb. destruct Hb as [-> _].
    constructor; [|constructor]. simpl. rewrite Hnorm.
    unfold omitempty. rewrite Hn. simpl. destruct Hlen as [k ->].
    reflexivity.
  - intros req Hne Hb. destruct (len bReq.(Objects)); [congruence|].
    rewrite Hb. reflexivity.
  - rewrite Batch_bReqAfter. destruct (len bReq.(Objects)).
    + exact Hn.
    + rewrite Hnorm. exact Hn.
Qed.

Lemma other_hints_verbatim_witness :
  exists new,
    snd (Batch (Sample.answering 200) "origin"
               (Sample.upload (Some [Sample.object "a1" 3])
                              (Some ["basic"; "tus"])) [])
    = [] ++ new
    /\ Forall (fun mr => field "transfers" (Body (snd mr))
                         = Some (JArray (map JString ["basic"; "tus"])))
              (sent new)
    /\ (forall req,
           len (Objects (Sample.upload (Some [Sample.object "a1" 3])
                                       (Some ["basic"; "tus"]))) <> 0 ->
           built (Sample.answering 200) "origin"
                 (Sample.upload (Some [Sample.object "a1" 3])
                                (Some ["basic"; "tus"]))
           = inr req ->
           sent new = [("origin", req)])
    /\ (bReqAfter (fst (Batch (Sample.answering 200) "origin"
                              (Sample.upload (Some [Sample.object "a1" 3])
                                             (Some ["basic"; "tus"])) [])))
       .(TransferAdapterNames) = Some ["basic"; "tus"].
Proof.
  apply other_hints_verbatim; [reflexivity | left; simpl; lia].
Defined.

(** C6, as the code has it: for every non-empty batch request, the request
    [Batch] puts on the wire is an HTTP POST to objects/batch under the
    endpoint resolved for the request's operation and the remote, whose JSON
    body has exactly the fields operation (the direction string), objects
    (the object list) and transfers (the submitted adapter-name list, left
    out when that list is empty or is exactly ["basic"]).  No other request
    is sent by the call, and this one is sent whenever it can be built. *)
Theorem batch_wire_request (c : Client) (remote : string)
        (bReq : batchRequest) (tr : list event) :
  len bReq.(Objects) <> 0 ->
  let e := c.(Endpoints_Endpoint) bReq.(Operation) remote in
  let names := elems bReq.(TransferAdapterNames) in
  let body :=
      JObject ([("operation", JString bReq.(Operation));
                ("objects", JArray (map marshal_object (elems bReq.(Objects))))]
               ++ match names with
                  | [] => []
                  | [n] => if String.eqb n "basic" then []
                           else [("transfers", JArray [JString n])]
                  | _ => [("transfers", JArray (map JString names))]
                  end) in
  let req := {| Method := "POST";
                URL := (e.(Url) ++ "/objects/batch")%string;
                Body := body |} in
  exists new,
    snd (Batch c remote bReq tr) = tr ++ new
    /\ Forall (eq (remote, req)) (sent new)
    /\ (c.(NewRequest_fault) "POST" e "objects/batch" body = None ->
        sent new = [(remote, req)]).
Proof.
  intros Hne. cbv zeta.
  destruct (Batch_sent c remote bReq tr) as [new [Htr Hs]].
  exists new. split; [exact Htr|]. rewrite Hs. unfold issued.
  destruct (len bReq.(Objects)) eqn:E; [congruence|].
  assert (Hbody :
    marshal_batchRequest (normalize bReq) =
    JObject ([("operation", JString bReq.(Operation));
              ("objects", JArray (map marshal_object (elems bReq.(Objects))))]
             ++ match elems bReq.(TransferAdapterNames) with
                | [] => []
                | [n] => if String.eqb n "basic" then []
                         else [("transfers", JArray [JString n])]
                | _ => [("transfers",
                         JArray (map JString (elems bReq.(TransferAdapterNames))))]
                end)).
  { unfold marshal_batchRequest.
    rewrite normalize_Operation, normalize_Objects.
    clear Htr Hs. destruct bReq as [op objs names]. simpl in *.
    destruct objs as [l|]; [|discriminate]. simpl.
    unfold normalize, only_basic, omitempty. simpl.
    destruct names as [[|x [|y l']]|]; simpl.
    - reflexivity.
    - destruct (String.eqb x "basic"); reflexivity.
    - reflexivity.
    - reflexivity. }
  rewrite <- Hbody. split.
  - destruct (built c remote bReq) as [e|req] eqn:Hb; [constructor|].
    apply built_inv in Hb. destruct Hb as [-> _].
    constructor; [reflexivity|constructor].
  - intros Hf. unfold built, NewRequest. cbv zeta.
    rewrite normalize_Operation, Hf. reflexivity.
Qed.

Lemma batch_wire_request_witness :
  exists new,
    snd (Batch (Sample.answering 200) "origin"
               (Sample.upload (Some [Sample.object "a1" 3]) (Some ["tus"])) [])
    = [] ++ new
    /\ Forall (eq ("origin",
                   {| Method := "POST";
                      URL := "https://lfs.example.com/origin/objects/batch";
                      Body := JObject
                                [("operation", JString "upload");
                                 ("objects",
                                  JArray [JObject [("oid", JString "a1");
                                                   ("size", JNumber 3)]]);
                                 ("transfers", JArray [JString "tus"])] |}))
              (sent new)
    /\ (@None error = None ->
        sent new =
        [("origin",
          {| Method := "POST";
             URL := "https://lfs.example.com/origin/objects/batch";
             Body := JObject
                       [("operation", JString "upload");
                        ("objects",
                         JArray [JObject [("oid", JString "a1");
                                          ("size", JNumber 3)]]);
                        ("transfers", JArray [JString "tus"])] |})]).
Proof.
  apply (batch_wire_request (Sample.answering 200) "origin"
           (Sample.upload (Some [Sample.object "a1" 3]) (Some ["tus"])) []).
  simpl. discriminate.
Defined.

(** C6 as stated fails: a non-empty request whose adapter-name list is
    ["basic"], a list that is not empty, goes out without a transfers
    field. *)
Lemma basic_list_is_not_sent :
  ~ (forall (c : Client) (remote : string) (bReq : batchRequest),
        len bReq.(Objects) <> 0 ->
        len bReq.(TransferAdapterNames) <> 0 ->
        Forall (fun mr =>
                  field "transfers" (Body (snd mr))
                  = Some (JArray (map JString
                                      (elems bReq.(TransferAdapterNames)))))
               (sent (snd (Batch c remote bReq [])))).
Proof.
  intros H.
  specialize (H (Sample.answering 200) "origin"
                (Sample.upload (Some [Sample.object "a1" 3]) (Some ["basic"]))
                ltac:(simpl; discriminate) ltac:(simpl; discriminate)).
  simpl in H. inversion H as [|? ? Hf _]. discriminate Hf.
Qed.

(** C8, as the code has it: when the adapter-name list is exactly ["basic"]
    and the object list is not empty, the caller's request has a nil
    adapter-name list after [Batch] returns, on every path; when the object
    list is empty the request is returned as it was; Operation and Objects
    are never changed. *)
Theorem Batch_mutates_request (c : Client) (remote : string)
        (bReq : batchRequest) (tr : list event) :
  bReq.(TransferAdapterNames) = Some ["basic"] ->
  let after := bReqAfter (fst (Batch c remote bReq tr)) in
  (len bReq.(Objects) <> 0 -> after.(TransferAdapterNames) = None)
  /\ (len bReq.(Objects) = 0 -> after = bReq)
  /\ after.(Operation) = bReq.(Operation)
  /\ after.(Objects) = bReq.(Objects).
Proof.
  intros Hn. cbv zeta. rewrite Batch_bReqAfter.
  destruct (len bReq.(Objects)) eqn:E.
  - repeat split; congruence.
  - rewrite normalize_Operation, normalize_Objects.
    repeat split; try discriminate.
    intros _. unfold normalize. rewrite Hn. reflexivity.
Qed.

Lemma Batch_mutates_request_witness :
  let after :=
      bReqAfter (fst (Batch Sample.unreachable "origin"
                            (Sample.upload (Some [Sample.object "a1" 3])
                                           (Some ["basic"])) [])) in
  (len (Some [Sample.object "a1" 3]) <> 0 ->
   after.(TransferAdapterNames) = None)
  /\ (len (Some [Sample.object "a1" 3]) = 0 ->
      after = Sample.upload (Some [Sample.object "a1" 3]) (Some ["basic"]))
  /\ after.(Operation) = "upload"
  /\ after.(Objects) = Some [Sample.object "a1" 3].
Proof.
  apply (Batch_mutates_request Sample.unreachable "origin"
           (Sample.upload (Some [Sample.object "a1" 3]) (Some ["basic"])) []).
  reflexivity.
Defined.

(** C8 as stated fails: a request with no objects and the adapter-name list
    ["basic"] comes back with that list still in place. *)
Lemma empty_request_keeps_basic :
  ~ (forall (c : Client) (remote : string) (bReq : batchRequest)
            (tr : list event),
        bReq.(TransferAdapterNames) = Some ["basic"] ->
        (bReqAfter (fst (Batch c remote bReq tr))).(TransferAdapterNames)
        = None).
Proof.
  intros H.
  specialize (H (Sample.answering 200) "origin"
                (Sample.upload None (Some ["basic"])) [] eq_refl).
  discriminate H.
Qed.

(** C9: on a non-200 status [Batch] returns a nil batch response, the
    HTTP response it received and a non-nil error; when the transport fails,
    or the request cannot be built, it returns nil for both the batch
    response and the HTTP response, and a non-nil error. *)
Theorem Batch_failure_returns (c : Client) (remote : string)
        (bReq : batchRequest) (tr : list event) :
  len bReq.(Objects) <> 0 ->
  let r := fst (Batch c remote bReq tr) in
  let tr1 := tr ++ [EvTraceBatch (len bReq.(Objects))] in
  (forall req res,
      built c remote bReq = inr req ->
      c.(Answer) tr1 remote req = inr res ->
      res.(StatusCode) <> 200%Z ->
      r.(bRes) = None /\ r.(hRes) = Some res /\ r.(err) <> None
      /\ r.(err) = Some (ErrInvalidStatus "POST" (before_query req.(URL))
                                          res.(StatusCode)))
  /\ (forall req e,
         built c remote bReq = inr req ->
         c.(Answer) tr1 remote req = inl e ->
         r.(bRes) = None /\ r.(hRes) = None /\ r.(err) <> None
         /\ r.(err) = Some (ErrWrap e "batch response"))
  /\ (forall e,
         built c remote bReq = inl e ->
         r.(bRes) = None /\ r.(hRes) = None /\ r.(err) <> None
         /\ r.(err) = Some (ErrWrap e "batch request")).
Proof.
  intros Hne. cbv zeta. repeat split.
  all: try match goal with
           | Hb : built _ _ _ = inr ?req, Ha : Answer _ _ _ ?req = inr ?res |- _ =>
             rewrite (Batch_answered c remote bReq tr req res Hne Hb Ha);
             simpl; destruct (Z.eqb_spec (StatusCode res) 200);
             [contradiction|simpl]
           | Hb : built _ _ _ = inr ?req, Ha : Answer _ _ _ ?req = inl ?e |- _ =>
             rewrite (Batch_unanswered c remote bReq tr req e Hne Hb Ha); simpl
           | Hb : built _ _ _ = inl ?e |- _ =>
             rewrite (Batch_unbuilt c remote bReq tr e Hne Hb); simpl
           end.
  all: try reflexivity; try discriminate.
  apply built_inv in H. destruct H as [-> _]. reflexivity.
Qed.

Lemma Batch_failure_returns_witness :
  let bReq := Sample.upload (Some [Sample.object "a1" 3]) (Some ["basic"]) in
  let r := fst (Batch (Sample.answering 404) "origin" bReq []) in
  r.(bRes) = None
  /\ r.(hRes) = Some {| StatusCode := 404; Payload := "{}" |}
  /\ r.(err) <> None
  /\ r.(err) = Some (ErrInvalidStatus
                       "POST" "https://lfs.example.com/origin/objects/batch" 404).
Proof.
  cbv zeta.
  apply (proj1 (Batch_failure_returns (Sample.answering 404) "origin"
                  (Sample.upload (Some [Sample.object "a1" 3]) (Some ["basic"]))
                  [] ltac:(simpl; discriminate))
               {| Method := "POST";
                  URL := "https://lfs.example.com/origin/objects/batch";
                  Body := JObject
                            [("operation", JString "upload");
                             ("objects",
                              JArray [JObject [("oid", JString "a1");
                                               ("size", JNumber 3)]])] |}
               {| StatusCode := 404; Payload := "{}" |}).
  - reflexivity.
  - reflexivity.
  - simpl. discriminate.
Defined.

(** C1, as the code has it: for a non-empty batch request that reaches the
    remote, [Batch] returns a non-nil error if and only if the status is not
    exactly 200 or the body of the 200 response fails to decode.  On a
    status other than 200 no batch response is produced, the queue fails
    every object of that batch with that negotiation error, and the results
    of the other batches of the run are what they are without it. *)
Theorem Batch_error_iff_not_200 (c : Client) (remote : string)
        (bReq : batchRequest) (tr : list event)
        (req : httpRequest) (res : httpResponse) :
  len bReq.(Objects) <> 0 ->
  built c remote bReq = inr req ->
  c.(Answer) (tr ++ [EvTraceBatch (len bReq.(Objects))]) remote req = inr res ->
  let r := fst (Batch c remote bReq tr) in
  (r.(err) <> None <->
   res.(StatusCode) <> 200%Z \/ snd (c.(DecodeJSON) res zeroResponse) <> None)
  /\ (res.(StatusCode) <> 200%Z ->
      r.(bRes) = None
      /\ exists e,
          r.(err) = Some e
          /\ (forall cfg batch,
                 Queue.batch_results cfg (batch, r)
                 = map (Queue.negotiation_failed e) batch)
          /\ (forall cfg pre post batch,
                 flat_map (Queue.batch_results cfg) (pre ++ (batch, r) :: post)
                 = flat_map (Queue.batch_results cfg) pre
                   ++ map (Queue.negotiation_failed e) batch
                   ++ flat_map (Queue.batch_results cfg) post)).
Proof.
  intros Hne Hb Ha. cbv zeta.
  rewrite (Batch_answered c remote bReq tr req res Hne Hb Ha). simpl.
  destruct (Z.eqb_spec (StatusCode res) 200) as [E|E]; simpl.
  - split.
    + split; [intros H; right; exact H|].
      intros [H|H]; [contradiction|exact H].
    + intros H. contradiction.
  - split.
    + split; [intros _; left; exact E|intros _; discriminate].
    + intros _. split; [reflexivity|].
      eexists. split; [reflexivity|]. split.
      * intros cfg batch. reflexivity.
      * intros cfg pre post batch. rewrite flat_map_app. reflexivity.
Qed.

Lemma Batch_error_iff_not_200_witness :
  let c := Sample.answering 500 in
  let bReq := Sample.upload (Some [Sample.object "a1" 3]) (Some ["basic"]) in
  let res := {| StatusCode := 500; Payload := "{}" |} in
  let r := fst (Batch c "origin" bReq []) in
  (r.(err) <> None <->
   res.(StatusCode) <> 200%Z \/ snd (c.(DecodeJSON) res zeroResponse) <> None)
  /\ (res.(StatusCode) <> 200%Z ->
      r.(bRes) = None
      /\ exists e,
          r.(err) = Some e
          /\ (forall cfg batch,
                 Queue.batch_results cfg (batch, r)
                 = map (Queue.negotiation_failed e) batch)
          /\ (forall cfg pre post batch,
                 flat_map (Queue.batch_results cfg) (pre ++ (batch, r) :: post)
                 = flat_map (Queue.batch_results cfg) pre
                   ++ map (Queue.negotiation_failed e) batch
                   ++ flat_map (Queue.batch_results cfg) post)).
Proof.
  cbv zeta.
  apply (Batch_error_iff_not_200 (Sample.answering 500) "origin"
           (Sample.upload (Some [Sample.object "a1" 3]) (Some ["basic"])) []
           {| Method := "POST";
              URL := "https://lfs.example.com/origin/objects/batch";
              Body := JObject
                        [("operation", JString "upload");
                         ("objects",
                          JArray [JObject [("oid", JString "a1");
                                           ("size", JNumber 3)]])] |}
           {| StatusCode := 500; Payload := "{}" |}).
  - simpl. discriminate.
  - reflexivity.
  - reflexivity.
Defined.

(** C1 as stated fails: a 201 answer is in the 2xx class, and [Batch]
    still returns an error. *)
Lemma status_201_is_an_error :
  ~ (forall (c : Client) (remote : string) (bReq : batchRequest)
            (tr : list event) (req : httpRequest) (res : httpResponse),
        len bReq.(Objects) <> 0 ->
        built c remote bReq = inr req ->
        c.(Answer) (tr ++ [EvTraceBatch (len bReq.(Objects))]) remote req
        = inr res ->
        ((fst (Batch c remote bReq tr)).(err) <> None <->
         ~ (200 <= res.(StatusCode) < 300)%Z)).
Proof.
  intros H.
  specialize (H (Sample.answering 201) "origin"
                (Sample.upload (Some [Sample.object "a1" 3]) (Some ["basic"]))
                [] _ {| StatusCode := 201; Payload := "{}" |}
                ltac:(simpl; discriminate) eq_refl eq_refl).
  simpl in H. destruct H as [H _]. apply H; [discriminate|lia].
Qed.

(** * Properties of the queue around [Batch] *)

Import Queue.

Lemma bind_run {A B} (m : M A) (k : A -> M B) (tr : list event) :
  bind m k tr = k (fst (m tr)) (snd (m tr)).
Proof. unfold bind. destruct (m tr). reflexivity. Qed.

Lemma chunk_fuel_concat {A} (limit : nat) :
  0 < limit ->
  forall (fuel : nat) (l : list A),
    length l <= fuel -> concat (chunk_fuel fuel limit l) = l.
Proof.
  intros Hl. induction fuel as [|fuel IH]; intros l Hlen.
  - destruct l; [reflexivity|simpl in Hlen; lia].
  - destruct l as [|x l]; [reflexivity|].
    cbn [chunk_fuel concat]. rewrite IH.
    + apply firstn_skipn.
    + rewrite length_skipn. cbn [length] in *. lia.
Qed.

Lemma chunk_fuel_bounded {A} (limit : nat) :
  0 < limit ->
  forall (fuel : nat) (l : list A),
    Forall (fun b => 0 < length b <= limit) (chunk_fuel fuel limit l).
Proof.
  intros Hl. induction fuel as [|fuel IH]; intros l; [constructor|].
  destruct l as [|x l]; [constructor|].
  cbn [chunk_fuel]. constructor; [|apply IH].
  rewrite length_firstn. simpl length. lia.
Qed.

Lemma chunk_concat {A} (limit : nat) (l : list A) :
  0 < limit -> concat (chunk limit l) = l.
Proof. intros H. apply chunk_fuel_concat; [exact H|reflexivity]. Qed.

Lemma chunk_bounded {A} (limit : nat) (l : list A) :
  0 < limit -> Forall (fun b => 0 < length b <= limit) (chunk limit l).
Proof. intros H. apply chunk_fuel_bounded. exact H. Qed.

(** The calls of [negotiate_batches]: one outcome per batch, in order, and
    on the wire what each [Batch] call issues. *)
Lemma negotiate_batches_sent (cfg : Config)
      (batches : list (list ObjectDescriptor)) :
  forall tr : list event,
    map fst (fst (negotiate_batches cfg batches tr)) = batches
    /\ exists new,
        snd (negotiate_batches cfg batches tr) = tr ++ new
        /\ sent new =
           flat_map (fun b => issued cfg.(client) cfg.(remote)
                                     (request_for cfg b)) batches.
Proof.
  induction batches as [|b rest IH]; intros tr.
  - simpl. split; [reflexivity|]. exists []. rewrite app_nil_r.
    split; reflexivity.
  - cbn [negotiate_batches]. rewrite !bind_run. unfold ret. cbn [fst snd map].
    destruct (Batch_sent cfg.(client) cfg.(remote) (request_for cfg b) tr)
      as [new1 [Htr1 Hs1]].
    rewrite Htr1.
    destruct (IH (tr ++ new1)) as [Hm [new2 [Htr2 Hs2]]].
    split.
    + rewrite Hm. reflexivity.
    + exists (new1 ++ new2). split.
      * rewrite Htr2. symmetry. apply app_assoc.
      * rewrite sent_app, Hs1, Hs2. reflexivity.
Qed.

(** What a batch puts on the wire is its objects, in order. *)
Lemma issued_wire_objects (cfg : Config) (b : list ObjectDescriptor) :
  Forall (fun mr => wire_objects (snd mr)
                    = map (fun o => marshal_object (resource o)) b)
         (issued cfg.(client) cfg.(remote) (request_for cfg b)).
Proof.
  unfold issued. destruct (len _); [constructor|].
  destruct (built _ _ _) as [e|req] eqn:Hb; [constructor|].
  apply built_inv in Hb. destruct Hb as [-> _].
  constructor; [|constructor]. simpl.
  unfold wire_objects. simpl. rewrite normalize_Objects. simpl.
  apply map_map.
Qed.

Lemma issued_one (cfg : Config) (b : list ObjectDescriptor) :
  (forall m e s j, cfg.(client).(NewRequest_fault) m e s j = None) ->
  b <> [] ->
  exists req, issued cfg.(client) cfg.(remote) (request_for cfg b)
              = [(cfg.(remote), req)].
Proof.
  intros Hf Hb. unfold issued. destruct b as [|o b]; [congruence|].
  simpl len. unfold built, NewRequest. cbv zeta. rewrite Hf. eauto.
Qed.

(** [Batch] itself does not split: a request that can be built carries the
    whole object list it was given. *)
Lemma Batch_sends_whole_list (c : Client) (remote : string)
      (bReq : batchRequest) (req : httpRequest) :
  built c remote bReq = inr req ->
  carried req = len bReq.(Objects).
Proof.
  intros Hb. apply built_inv in Hb. destruct Hb as [-> _].
  unfold carried, wire_objects. simpl. rewrite normalize_Objects.
  destruct (Objects bReq) as [l|]; simpl; [apply length_map|reflexivity].
Qed.

Lemma issued_in_order (cfg : Config) (batches : list (list ObjectDescriptor)) :
  (forall m e s j, cfg.(client).(NewRequest_fault) m e s j = None) ->
  Forall (fun b => 0 < length b <= cfg.(batchLimit)) batches ->
  map (fun mr => wire_objects (snd mr))
      (flat_map (fun b => issued cfg.(client) cfg.(remote) (request_for cfg b))
                batches)
  = map (map (fun o => marshal_object (resource o))) batches.
Proof.
  intros Hf. induction 1 as [|b rest Hb _ IH]; [reflexivity|].
  cbn [flat_map map]. rewrite map_app, IH. f_equal.
  assert (Hne : b <> []) by (destruct b; [simpl in Hb; lia|discriminate]).
  destruct (issued_one cfg b Hf Hne) as [req Hreq].
  pose proof (issued_wire_objects cfg b) as Hw. rewrite Hreq in Hw |- *.
  inversion Hw as [|? ? Hw1 _]. subst. simpl in Hw1 |- *. rewrite Hw1.
  reflexivity.
Qed.

(** C4: for every submitted object list and a positive limit, negotiation
    splits the input into consecutive non-empty batches of at most the limit
    whose concatenation is the input, calls [Batch] once per batch in that
    order, and no request on the wire carries more objects than the limit;
    when requests can be built there is exactly one request per batch, each
    carrying its batch's objects in input order. *)
Theorem batches_bounded (cfg : Config) (objs : list ObjectDescriptor)
        (tr : list event) :
  0 < cfg.(batchLimit) ->
  let out := Negotiate cfg objs tr in
  let batches := map fst (fst out) in
  batches = chunk cfg.(batchLimit) objs
  /\ concat batches = objs
  /\ Forall (fun b => 0 < length b <= cfg.(batchLimit)) batches
  /\ exists new,
      snd out = tr ++ new
      /\ sent new =
         flat_map (fun b => issued cfg.(client) cfg.(remote) (request_for cfg b))
                  batches
      /\ Forall (fun mr => carried (snd mr) <= cfg.(batchLimit)) (sent new)
      /\ ((forall m e s j, cfg.(client).(NewRequest_fault) m e s j = None) ->
          map (fun mr => wire_objects (snd mr)) (sent new)
          = map (map (fun o => marshal_object (resource o))) batches).
Proof.
  intros Hl. cbv zeta. unfold Negotiate.
  destruct (negotiate_batches_sent cfg (chunk cfg.(batchLimit) objs) tr)
    as [Hm [new [Htr Hs]]].
  rewrite Hm. pose proof (chunk_bounded (batchLimit cfg) objs Hl) as Hb.
  split; [reflexivity|]. split; [apply chunk_concat; exact Hl|].
  split; [exact Hb|].
  exists new. split; [exact Htr|]. split; [exact Hs|]. split.
  - rewrite Hs. apply Forall_flat_map.
    apply Forall_impl with (2 := Hb). intros b Hlen.
    apply Forall_impl with (2 := issued_wire_objects cfg b).
    intros mr Hw. unfold carried. rewrite Hw, length_map. lia.
  - intros Hf. rewrite Hs. apply issued_in_order; assumption.
Qed.

Lemma batches_bounded_witness :
  let cfg := Sample.config (Sample.answering 200) 2 in
  let objs := [Sample.descriptor "a1" 1; Sample.descriptor "a2" 2;
               Sample.descriptor "a3" 3] in
  let out := Negotiate cfg objs [] in
  let batches := map fst (fst out) in
  batches = chunk cfg.(batchLimit) objs
  /\ concat batches = objs
  /\ Forall (fun b => 0 < length b <= cfg.(batchLimit)) batches
  /\ exists new,
      snd out = [] ++ new
      /\ sent new =
         flat_map (fun b => issued cfg.(client) cfg.(remote) (request_for cfg b))
                  batches
      /\ Forall (fun mr => carried (snd mr) <= cfg.(batchLimit)) (sent new)
      /\ ((forall m e s j, cfg.(client).(NewRequest_fault) m e s j = None) ->
          map (fun mr => wire_objects (snd mr)) (sent new)
          = map (map (fun o => marshal_object (resource o))) batches).
Proof.
  apply (batches_bounded (Sample.config (Sample.answering 200) 2)
           [Sample.descriptor "a1" 1; Sample.descriptor "a2" 2;
            Sample.descriptor "a3" 3] []).
  simpl. lia.
Defined.

(** Three objects under a limit of two: two requests, of two and one. *)
Example three_objects_two_requests :
  map (fun mr => carried (snd mr))
      (sent (snd (Negotiate (Sample.config (Sample.answering 200) 2)
                            [Sample.descriptor "a1" 1; Sample.descriptor "a2" 2;
                             Sample.descriptor "a3" 3] [])))
  = [2; 1].
Proof. reflexivity. Qed.

(** ** Completeness of the report *)

Lemma transfer_failed_outcome (e : error) (o : ObjectDescriptor) :
  (transfer_failed e o).(rhash) = o.(hash)
  /\ explicit_outcome (transfer_failed e o).
Proof.
  split; [reflexivity|]. right; right. split; [reflexivity|]. simpl. eauto.
Qed.

Lemma run_job_rhash (cfg : Config) (ad : Adapter) (o : ObjectDescriptor)
      (act : ObjectResource) :
  forall left attempt,
    (run_job cfg ad o act left attempt).(rhash) = o.(hash)
    /\ explicit_outcome (run_job cfg ad o act left attempt).
Proof.
  induction left as [|left IH]; intros attempt; cbn [run_job].
  - apply transfer_failed_outcome.
  - destruct (Execute ad o act attempt) as [[m|m]|n].
    + apply IH.
    + apply transfer_failed_outcome.
    + destruct (Verify cfg o attempt).
      * apply transfer_failed_outcome.
      * split; [reflexivity|]. left. split; reflexivity.
Qed.

Lemma negotiation_failed_outcome (e : error) (o : ObjectDescriptor) :
  (negotiation_failed e o).(rhash) = o.(hash)
  /\ explicit_outcome (negotiation_failed e o).
Proof.
  split; [reflexivity|]. right; left. split; [reflexivity|]. simpl. eauto.
Qed.

Lemma object_result_outcome (cfg : Config) (resp : batchResponse)
      (o : ObjectDescriptor) :
  (object_result cfg resp o).(rhash) = o.(hash)
  /\ explicit_outcome (object_result cfg resp o).
Proof.
  unfold object_result.
  destruct (find_action _ _) as [act|]; [|apply negotiation_failed_outcome].
  destruct (Error act); [apply negotiation_failed_outcome|].
  destruct (assoc _ _); [apply run_job_rhash|apply negotiation_failed_outcome].
Qed.

Lemma batch_results_outcome (cfg : Config) (b : list ObjectDescriptor)
      (r : BatchReturn) :
  map rhash (batch_results cfg (b, r)) = map hash b
  /\ Forall explicit_outcome (batch_results cfg (b, r)).
Proof.
  unfold batch_results.
  destruct (err r) as [e|]; [|destruct (bRes r) as [resp|]];
    rewrite map_map; (split; [apply map_ext_in | apply Forall_map, Forall_forall];
                      intros o _);
    first [apply negotiation_failed_outcome | apply object_result_outcome].
Qed.

Lemma results_outcome (cfg : Config)
      (outcomes : list (list ObjectDescriptor * BatchReturn)) :
  map rhash (flat_map (batch_results cfg) outcomes)
  = map hash (concat (map fst outcomes))
  /\ Forall explicit_outcome (flat_map (batch_results cfg) outcomes).
Proof.
  induction outcomes as [|[b r] rest [IH1 IH2]]; [split; constructor|].
  cbn [flat_map map concat fst].
  destruct (batch_results_outcome cfg b r) as [H1 H2].
  rewrite !map_app, IH1, H1. split; [reflexivity|].
  apply Forall_app. split; assumption.
Qed.

Lemma existsb_hash_In (h : string) (seen : list string) :
  existsb (String.eqb h) seen = true <-> In h seen.
Proof.
  rewrite existsb_exists. split.
  - intros [x [Hx He]]. apply String.eqb_eq in He. subst. exact Hx.
  - intros H. exists h. split; [exact H|apply String.eqb_refl].
Qed.

(** [dedupe_seen] keeps one object per hash not seen before. *)
Lemma dedupe_seen_spec (objs : list ObjectDescriptor) :
  forall seen,
    NoDup (map hash (dedupe_seen seen objs))
    /\ (forall h, In h (map hash (dedupe_seen seen objs))
                  <-> In h (map hash objs) /\ ~ In h seen).
Proof.
  induction objs as [|o objs IH]; intros seen.
  - simpl. split; [constructor|]. intros h. tauto.
  - cbn [dedupe_seen].
    destruct (existsb (String.eqb (hash o)) seen) eqn:E.
    + apply existsb_hash_In in E. destruct (IH seen) as [Hn Hi].
      split; [exact Hn|]. intros h. rewrite Hi. simpl.
      split; [tauto|]. intros [[<-|H] Hs]; tauto.
    + assert (Hns : ~ In (hash o) seen).
      { intros H. apply existsb_hash_In in H. congruence. }
      destruct (IH (hash o :: seen)) as [Hn Hi]. split.
      * simpl. constructor; [|exact Hn]. rewrite Hi. simpl. tauto.
      * intros h. simpl. rewrite Hi. simpl.
        destruct (string_dec (hash o) h) as [<-|Hd]; tauto.
Qed.

(** C5: for every run of the queue on a fresh queue with a positive batch
    limit, the report holds one result per submitted hash, in submission
    order of first occurrence: every submitted object's hash occurs exactly
    once among the results, each result is a success, a negotiation error
    or a transfer error, and the report is as long as the deduplicated
    input. *)
Theorem report_complete (cfg : Config) (objs : list ObjectDescriptor)
        (tr : list event) :
  0 < cfg.(batchLimit) ->
  exists rep tr',
    Enqueue cfg NewTransferQueue objs tr = (inr ({| state := Done |}, rep), tr')
    /\ map rhash rep.(Results) = map hash (dedupe objs)
    /\ (forall o, In o objs ->
                  count_occ string_dec (map rhash rep.(Results)) o.(hash) = 1)
    /\ Forall explicit_outcome rep.(Results)
    /\ length rep.(Results) = length (dedupe objs).
Proof.
  intros Hl. unfold Enqueue. cbn [NewTransferQueue state].
  rewrite bind_run. unfold ret. do 2 eexists. split; [reflexivity|].
  cbn [report_of Results]. unfold Negotiate.
  destruct (results_outcome cfg
              (fst (negotiate_batches cfg (chunk cfg.(batchLimit) (dedupe objs)) tr)))
    as [Hh Ho].
  destruct (negotiate_batches_sent cfg (chunk cfg.(batchLimit) (dedupe objs)) tr)
    as [Hm _].
  rewrite Hm, chunk_concat in Hh by exact Hl.
  split; [exact Hh|]. split; [|split; [exact Ho|]].
  - intros o Hin. rewrite Hh.
    destruct (dedupe_seen_spec objs []) as [Hn Hi].
    apply NoDup_count_occ'; [exact Hn|]. apply Hi. split.
    + apply in_map. exact Hin.
    + intros [].
  - rewrite <- (length_map rhash), Hh. apply length_map.
Qed.

Lemma report_complete_witness :
  exists rep tr',
    Enqueue (Sample.config (Sample.answering 500) 2) NewTransferQueue
            [Sample.descriptor "a1" 1; Sample.descriptor "a2" 2;
             Sample.descriptor "a1" 1; Sample.descriptor "a3" 3] []
    = (inr ({| state := Done |}, rep), tr')
    /\ map rhash rep.(Results)
       = map hash (dedupe [Sample.descriptor "a1" 1; Sample.descriptor "a2" 2;
                           Sample.descriptor "a1" 1; Sample.descriptor "a3" 3])
    /\ (forall o,
           In o [Sample.descriptor "a1" 1; Sample.descriptor "a2" 2;
                 Sample.descriptor "a1" 1; Sample.descriptor "a3" 3] ->
           count_occ string_dec (map rhash rep.(Results)) o.(hash) = 1)
    /\ Forall explicit_outcome rep.(Results)
    /\ length rep.(Results)
       = length (dedupe [Sample.descriptor "a1" 1; Sample.descriptor "a2" 2;
                         Sample.descriptor "a1" 1; Sample.descriptor "a3" 3]).
Proof.
  apply (report_complete (Sample.config (Sample.answering 500) 2)
           [Sample.descriptor "a1" 1; Sample.descriptor "a2" 2;
            Sample.descriptor "a1" 1; Sample.descriptor "a3" 3] []).
  simpl. lia.
Defined.

(** A duplicate hash is reported once; an empty submission sends nothing. *)
Example duplicate_reported_once :
  map rhash
      (match fst (Enqueue (Sample.config (Sample.answering 500) 2)
                          NewTransferQueue
                          [Sample.descriptor "a1" 1; Sample.descriptor "a2" 2;
                           Sample.descriptor "a1" 1; Sample.descriptor "a3" 3]
                          []) with
       | inr (_, rep) => rep.(Results)
       | inl _ => []
       end)
  = ["a1"; "a2"; "a3"].
Proof. reflexivity. Qed.

Example empty_submission :
  Enqueue (Sample.config Sample.unreachable 2) NewTransferQueue [] []
  = (inr ({| state := Done |},
          {| Results := []; SucceededCount := 0; FailedCount := 0 |}), []).
Proof. reflexivity. Qed.

Example used_queue_refuses :
  fst (Enqueue (Sample.config Sample.unreachable 2) {| state := Done |}
               [Sample.descriptor "a1" 1] [])
  = inl (ErrQueueState Done).
Proof. reflexivity. Qed.

(** * Properties of the git reference helpers *)

Import Git.


Lemma assoc_set_tip_other (b b' : string) (c : Commit)
      (bs : list (string * Commit)) :
  b <> b' -> assoc b' (set_tip b c bs) = assoc b' bs.
Proof.
  intros Hne. induction bs as [|[b0 c0] bs IH]; simpl.
  - destruct (String.eqb_spec b' b); [congruence|reflexivity].
  - destruct (String.eqb_spec b b0) as [->|Hd]; simpl.
    + destruct (String.eqb_spec b' b0); [congruence|reflexivity].
    + destruct (String.eqb b' b0); [reflexivity|exact IH].
Qed.


Lemma apply_op_history (r : Repo) (o : op) :
  r.(history) <> [] -> (apply_op r o).(history) <> [].
Proof.
  intros H. destruct o as [c|b|b|t|m|m src dst]; simpl; try exact H.
  - discriminate.
  - destruct (tip r b); [exact H|]. destruct (tip r (head r)); exact H.
  - destruct (tip r b); exact H.
  - destruct (tip r (head r)); exact H.
  - destruct (tip r src); [|exact H]. destruct (existsb _ _); exact H.
Qed.




















(** *** The tests of package git, replayed *)

(** TestCurrentRefAndCurrentRemoteRef: the last commit was on branch3. *)
Example test_current_ref_branch3 :
  CurrentRef (build current_ref_repo)
  = inr {| Name := "branch3"; Type_ := RefTypeLocalBranch; Sha := "c3" |}.
Proof. reflexivity. Qed.

(** ... and after checking out master. *)
Example test_current_ref_master :
  CurrentRef (build (current_ref_repo ++ [OpCheckout "master"]))
  = inr {| Name := "master"; Type_ := RefTypeLocalBranch; Sha := "c2" |}.
Proof. reflexivity. Qed.

(** TestResolveEmptyCurrentRef: no commit, an error. *)
Example test_resolve_empty_current_ref :
  exists e, CurrentRef NewRepo = inl e.
Proof. eexists. reflexivity. Qed.

(** TestRecentBranches: recent, local only. *)
Example test_recent_local_only :
  forall atSince,
    RecentBranches (build recent_branches_repo) atSince (-7) false EmptyString
    = ([ {| Name := "master"; Type_ := RefTypeLocalBranch; Sha := "c5" |};
         {| Name := "included_branch_2"; Type_ := RefTypeLocalBranch;
            Sha := "c4" |};
         {| Name := "included_branch"; Type_ := RefTypeLocalBranch;
            Sha := "c3" |} ],
       None).
Proof. intros []; reflexivity. Qed.

(** TestRecentBranches: recent, remotes too (all of them). *)
Example test_recent_all_remotes :
  forall atSince,
    RefsByName (fst (RecentBranches (build recent_branches_repo) atSince (-7)
                                    true EmptyString))
    = RefsByName
        [ {| Name := "master"; Type_ := RefTypeLocalBranch; Sha := "c5" |};
          {| Name := "included_branch_2"; Type_ := RefTypeLocalBranch;
             Sha := "c4" |};
          {| Name := "included_branch"; Type_ := RefTypeLocalBranch;
             Sha := "c3" |};
          {| Name := "upstream/master"; Type_ := RefTypeRemoteBranch;
             Sha := "c5" |};
          {| Name := "upstream/included_branch_2"; Type_ := RefTypeRemoteBranch;
             Sha := "c4" |};
          {| Name := "origin/master"; Type_ := RefTypeRemoteBranch; Sha := "c5" |};
          {| Name := "origin/included_branch"; Type_ := RefTypeRemoteBranch;
             Sha := "c3" |} ].
Proof. intros []; reflexivity. Qed.

(** TestRecentBranches: recent, only single remote. *)
Example test_recent_single_remote :
  forall atSince,
    RefsByName (fst (RecentBranches (build recent_branches_repo) atSince (-7)
                                    true "origin"))
    = RefsByName
        [ {| Name := "master"; Type_ := RefTypeLocalBranch; Sha := "c5" |};
          {| Name := "origin/master"; Type_ := RefTypeRemoteBranch; Sha := "c5" |};
          {| Name := "included_branch_2"; Type_ := RefTypeLocalBranch;
             Sha := "c4" |};
          {| Name := "included_branch"; Type_ := RefTypeLocalBranch;
             Sha := "c3" |};
          {| Name := "origin/included_branch"; Type_ := RefTypeRemoteBranch;
             Sha := "c3" |} ].
Proof. intros []; reflexivity. Qed.

(** * Further properties of [Batch] *)

(** The five ways a call of [Batch] can go. *)
Lemma Batch_cases (c : Client) (remote : string) (bReq : batchRequest)
      (tr : list event) :
  let r := fst (Batch c remote bReq tr) in
  let new1 := [EvTraceBatch (len bReq.(Objects))] in
  (len bReq.(Objects) = 0
   /\ Batch c remote bReq tr =
      ({| bRes := Some zeroResponse; hRes := None; err := None;
          bReqAfter := bReq |}, tr))
  \/ (len bReq.(Objects) <> 0
      /\ exists e, built c remote bReq = inl e
                   /\ r.(bRes) = None /\ r.(hRes) = None
                   /\ r.(err) = Some (ErrWrap e "batch request")
                   /\ snd (Batch c remote bReq tr) = tr)
  \/ (len bReq.(Objects) <> 0
      /\ exists req e,
          built c remote bReq = inr req
          /\ c.(Answer) (tr ++ new1) remote req = inl e
          /\ r.(bRes) = None /\ r.(hRes) = None
          /\ r.(err) = Some (ErrWrap e "batch response")
          /\ snd (Batch c remote bReq tr)
             = tr ++ [EvTraceBatch (len bReq.(Objects)); EvSend remote req;
                      EvTraceError e])
  \/ (len bReq.(Objects) <> 0
      /\ exists req res,
          built c remote bReq = inr req
          /\ c.(Answer) (tr ++ new1) remote req = inr res
          /\ res.(StatusCode) <> 200%Z
          /\ r.(bRes) = None /\ r.(hRes) = Some res
          /\ r.(err) = Some (ErrInvalidStatus req.(Method)
                                              (before_query req.(URL))
                                              res.(StatusCode))
          /\ snd (Batch c remote bReq tr)
             = tr ++ [EvTraceBatch (len bReq.(Objects)); EvSend remote req;
                      EvLogResponse "lfs.batch" res])
  \/ (len bReq.(Objects) <> 0
      /\ exists req res,
          built c remote bReq = inr req
          /\ c.(Answer) (tr ++ new1) remote req = inr res
          /\ res.(StatusCode) = 200%Z
          /\ r.(bRes) = Some (fst (c.(DecodeJSON) res zeroResponse))
          /\ r.(hRes) = Some res
          /\ r.(err) = snd (c.(DecodeJSON) res zeroResponse)
          /\ snd (Batch c remote bReq tr)
             = tr ++ [EvTraceBatch (len bReq.(Objects)); EvSend remote req;
                      EvLogResponse "lfs.batch" res]).
Proof.
  cbv zeta. destruct (len bReq.(Objects)) eqn:E.
  - left. split; [reflexivity|]. apply Batch_nil. exact E.
  - right. assert (Hne : len bReq.(Objects) <> 0) by lia. rewrite <- E.
    destruct (built c remote bReq) as [e|req] eqn:Hb.
    + left. split; [exact Hne|]. exists e.
      rewrite (Batch_unbuilt c remote bReq tr e Hne Hb). simpl. auto.
    + right.
      destruct (c.(Answer) (tr ++ [EvTraceBatch (len bReq.(Objects))]) remote req)
        as [e|res] eqn:Ha.
      * left. split; [exact Hne|]. exists req, e.
        rewrite (Batch_unanswered c remote bReq tr req e Hne Hb Ha). simpl.
        auto 10.
      * right. pose proof (Batch_answered c remote bReq tr req res Hne Hb Ha) as HB.
        destruct (Z.eqb_spec (StatusCode res) 200) as [Es|Es].
        -- right. split; [exact Hne|]. exists req, res. rewrite HB. simpl.
           auto 10.
        -- left. split; [exact Hne|]. exists req, res. rewrite HB. simpl.
           auto 10.
Qed.

(** X1: a nil error always comes with a usable batch response: whenever
    [Batch] returns a nil error the batch response is non-nil; the HTTP
    response is then nil exactly for an empty object list, and otherwise has
    status 200. *)
Theorem Batch_nil_error_has_response (c : Client) (remote : string)
        (bReq : batchRequest) (tr : list event) :
  (fst (Batch c remote bReq tr)).(err) = None ->
  let r := fst (Batch c remote bReq tr) in
  (exists b, r.(bRes) = Some b)
  /\ (r.(hRes) = None <-> len bReq.(Objects) = 0)
  /\ (forall res, r.(hRes) = Some res -> res.(StatusCode) = 200%Z).
Proof.
  cbv zeta. intros He.
  destruct (Batch_cases c remote bReq tr)
    as [[H0 HB]|[[Hne [e [_ [_ [_ [Hr _]]]]]]
       |[[Hne [req [e [_ [_ [_ [_ [Hr _]]]]]]]]
       |[[Hne [req [res [_ [_ [_ [_ [_ [Hr _]]]]]]]]]
       |[Hne [req [res [_ [_ [Hs [Hb [Hh _]]]]]]]]]]]];
    try (rewrite Hr in He; discriminate He).
  - rewrite HB. simpl. split; [eauto|]. split; [tauto|]. discriminate.
  - rewrite Hb, Hh. split; [eauto|]. split.
    + split; [discriminate|contradiction].
    + intros res' H. injection H as <-. exact Hs.
Qed.

Lemma Batch_nil_error_has_response_witness :
  let r := fst (Batch (Sample.answering 200) "origin"
                      (Sample.upload (Some [Sample.object "a1" 3])
                                     (Some ["basic"])) []) in
  (exists b, r.(bRes) = Some b)
  /\ (r.(hRes) = None
      <-> len (Objects (Sample.upload (Some [Sample.object "a1" 3])
                                      (Some ["basic"]))) = 0)
  /\ (forall res, r.(hRes) = Some res -> res.(StatusCode) = 200%Z).
Proof.
  apply (Batch_nil_error_has_response (Sample.answering 200) "origin"
           (Sample.upload (Some [Sample.object "a1" 3]) (Some ["basic"])) []).
  reflexivity.
Defined.

(** X2: the HTTP response is returned exactly when the transport produced
    one, whatever its status: [Batch] returns [res] as its HTTP response if
    and only if the object list is not empty, the request could be built and
    the transport answered it with [res]. *)
Theorem Batch_response_iff_answered (c : Client) (remote : string)
        (bReq : batchRequest) (tr : list event) (res : httpResponse) :
  (fst (Batch c remote bReq tr)).(hRes) = Some res
  <-> len bReq.(Objects) <> 0
      /\ exists req,
          built c remote bReq = inr req
          /\ c.(Answer) (tr ++ [EvTraceBatch (len bReq.(Objects))]) remote req
             = inr res.
Proof.
  split.
  - intros H.
    destruct (Batch_cases c remote bReq tr)
      as [[H0 HB]|[[Hne [e [_ [_ [Hh _]]]]]
         |[[Hne [req [e [_ [_ [_ [Hh _]]]]]]]
         |[[Hne [req [res' [Hb [Ha [_ [_ [Hh _]]]]]]]]
         |[Hne [req [res' [Hb [Ha [_ [_ [Hh _]]]]]]]]]]]].
    + rewrite HB in H. discriminate H.
    + rewrite Hh in H. discriminate H.
    + rewrite Hh in H. discriminate H.
    + rewrite Hh in H. injection H as <-. eauto.
    + rewrite Hh in H. injection H as <-. eauto.
  - intros [Hne [req [Hb Ha]]].
    rewrite (Batch_answered c remote bReq tr req res Hne Hb Ha). simpl.
    destruct (negb _); reflexivity.
Qed.

(** X3: the only call that returns both a batch response and an error is a
    200 answer whose body fails to decode: the batch response and the error
    are both non-nil if and only if the remote answered 200 and decoding
    failed. *)
Theorem Batch_response_and_error_iff_decode_failure (c : Client)
        (remote : string) (bReq : batchRequest) (tr : list event) :
  let r := fst (Batch c remote bReq tr) in
  (r.(bRes) <> None /\ r.(err) <> None)
  <-> len bReq.(Objects) <> 0
      /\ exists req res,
          built c remote bReq = inr req
          /\ c.(Answer) (tr ++ [EvTraceBatch (len bReq.(Objects))]) remote req
             = inr res
          /\ res.(StatusCode) = 200%Z
          /\ snd (c.(DecodeJSON) res zeroResponse) <> None.
Proof.
  cbv zeta. split.
  - intros [Hb He].
    destruct (Batch_cases c remote bReq tr)
      as [[H0 HB]|[[Hne [e [_ [Hn _]]]]
         |[[Hne [req [e [_ [_ [Hn _]]]]]]
         |[[Hne [req [res [_ [_ [_ [Hn _]]]]]]]
         |[Hne [req [res [Hbl [Ha [Hs [_ [_ [Hr _]]]]]]]]]]]]];
      try (rewrite Hn in Hb; contradiction Hb; reflexivity).
    + rewrite HB in He. contradiction He. reflexivity.
    + split; [exact Hne|]. exists req, res. rewrite Hr in He. auto.
  - intros [Hne [req [res [Hb [Ha [Hs Hd]]]]]].
    rewrite (Batch_answered c remote bReq tr req res Hne Hb Ha). simpl.
    rewrite Hs. simpl. split; [discriminate|exact Hd].
Qed.

(** X4: a call of [Batch] never rewrites the log and sends at most one
    request, without retrying: either it adds nothing (empty object list, or
    a request that cannot be built), or it adds exactly the trace line with
    the number of objects, the one request, and then either the trace of the
    transport error or the log of the response (of any status). *)
Theorem Batch_log_shape (c : Client) (remote : string)
        (bReq : batchRequest) (tr : list event) :
  exists new,
    snd (Batch c remote bReq tr) = tr ++ new
    /\ ((new = [] /\ sent new = []
         /\ (len bReq.(Objects) = 0 \/ exists e, built c remote bReq = inl e))
        \/ exists req last,
            new = [EvTraceBatch (len bReq.(Objects)); EvSend remote req; last]
            /\ sent new = [(remote, req)]
            /\ built c remote bReq = inr req
            /\ ((exists e,
                    last = EvTraceError e
                    /\ c.(Answer) (tr ++ [EvTraceBatch (len bReq.(Objects))])
                                  remote req = inl e)
                \/ (exists res,
                       last = EvLogResponse "lfs.batch" res
                       /\ c.(Answer) (tr ++ [EvTraceBatch (len bReq.(Objects))])
                                     remote req = inr res))).
Proof.
  destruct (Batch_cases c remote bReq tr)
    as [[H0 HB]|[[Hne [e [Hb [_ [_ [_ Ht]]]]]]
       |[[Hne [req [e [Hb [Ha [_ [_ [_ Ht]]]]]]]]
       |[[Hne [req [res [Hb [Ha [_ [_ [_ [_ Ht]]]]]]]]]
       |[Hne [req [res [Hb [Ha [_ [_ [_ [_ Ht]]]]]]]]]]]]].
  - exists []. rewrite HB, app_nil_r. split; [reflexivity|]. left. auto.
  - exists []. rewrite Ht, app_nil_r. split; [reflexivity|]. left. eauto.
  - eexists. split; [exact Ht|]. right. exists req, (EvTraceError e).
    repeat split; eauto.
  - eexists. split; [exact Ht|]. right.
    exists req, (EvLogResponse "lfs.batch" res). repeat split; eauto.
  - eexists. split; [exact Ht|]. right.
    exists req, (EvLogResponse "lfs.batch" res). repeat split; eauto.
Qed.

Lemma normalize_idem (b : batchRequest) : normalize (normalize b) = normalize b.
Proof.
  unfold normalize. destruct (only_basic (TransferAdapterNames b)) eqn:E.
  - reflexivity.
  - rewrite E. reflexivity.
Qed.

Lemma built_normalize (c : Client) (remote : string) (b : batchRequest) :
  built c remote (normalize b) = built c remote b.
Proof. unfold built. cbv zeta. rewrite normalize_idem. reflexivity. Qed.

(** X5: re-submitting the request that [Batch] has normalised changes
    nothing: against a transport whose answers do not depend on the history,
    a second call with the request as the first call left it returns the
    same results as the first, and puts the same request on the wire. *)
Theorem Batch_resubmit (c : Client) (remote : string) (bReq : batchRequest)
        (tr tr' : list event) :
  (forall t1 t2 m q, c.(Answer) t1 m q = c.(Answer) t2 m q) ->
  let r1 := fst (Batch c remote bReq tr) in
  fst (Batch c remote r1.(bReqAfter) tr') = r1
  /\ issued c remote r1.(bReqAfter) = issued c remote bReq.
Proof.
  intros Hst. cbv zeta. rewrite Batch_bReqAfter.
  destruct (len bReq.(Objects)) eqn:E.
  - split; [|reflexivity]. rewrite !Batch_nil by exact E. reflexivity.
  - assert (Hne : len bReq.(Objects) <> 0) by lia.
    assert (Hne' : len (normalize bReq).(Objects) <> 0)
      by (rewrite normalize_Objects; exact Hne).
    split.
    + destruct (built c remote bReq) as [e|req] eqn:Hb.
      * rewrite (Batch_unbuilt c remote bReq tr e Hne Hb).
        rewrite <- built_normalize in Hb.
        rewrite (Batch_unbuilt c remote (normalize bReq) tr' e Hne' Hb).
        simpl. rewrite normalize_idem. reflexivity.
      * destruct (c.(Answer) (tr ++ [EvTraceBatch (len bReq.(Objects))]) remote req)
          as [e|res] eqn:Ha.
        -- rewrite (Batch_unanswered c remote bReq tr req e Hne Hb Ha).
           rewrite <- built_normalize in Hb.
           rewrite (Hst _ (tr' ++ [EvTraceBatch (len (normalize bReq).(Objects))]))
             in Ha.
           rewrite (Batch_unanswered c remote (normalize bReq) tr' req e Hne' Hb Ha).
           simpl. rewrite normalize_idem. reflexivity.
        -- rewrite (Batch_answered c remote bReq tr req res Hne Hb Ha).
           rewrite <- built_normalize in Hb.
           rewrite (Hst _ (tr' ++ [EvTraceBatch (len (normalize bReq).(Objects))]))
             in Ha.
           rewrite (Batch_answered c remote (normalize bReq) tr' req res Hne' Hb Ha).
           simpl. rewrite normalize_idem. reflexivity.
    + unfold issued. rewrite normalize_Objects, built_normalize. reflexivity.
Qed.

Lemma Batch_resubmit_witness :
  let bReq := Sample.upload (Some [Sample.object "a1" 3]) (Some ["basic"]) in
  let r1 := fst (Batch (Sample.answering 404) "origin" bReq []) in
  fst (Batch (Sample.answering 404) "origin" r1.(bReqAfter)
             [EvTraceBatch 7]) = r1
  /\ issued (Sample.answering 404) "origin" r1.(bReqAfter)
     = issued (Sample.answering 404) "origin" bReq.
Proof.
  apply (Batch_resubmit (Sample.answering 404) "origin"
           (Sample.upload (Some [Sample.object "a1" 3]) (Some ["basic"]))
           [] [EvTraceBatch 7]).
  intros t1 t2 m q. reflexivity.
Defined.

Lemma before_query_no_mark (s : string) :
  ~ In "?"%char (list_ascii_of_string (before_query s)).
Proof.
  induction s as [|a s IH]; simpl; [tauto|].
  destruct (Ascii.eqb_spec a "?"%char) as [E|E]; simpl; [tauto|].
  intros [H|H]; [congruence|exact (IH H)].
Qed.

Lemma before_query_prefix (s : string) :
  String.prefix (before_query s) s = true.
Proof.
  induction s as [|a s IH]; simpl; [reflexivity|].
  destruct (Ascii.eqb a "?"%char); simpl; [reflexivity|].
  destruct (Ascii.ascii_dec a a); [exact IH|congruence].
Qed.

Lemma before_query_id (s : string) :
  ~ In "?"%char (list_ascii_of_string s) -> before_query s = s.
Proof.
  induction s as [|a s IH]; simpl; [reflexivity|]. intros H.
  destruct (Ascii.eqb_spec a "?"%char) as [E|E]; [tauto|].
  rewrite IH; [reflexivity|tauto].
Qed.

(** X6: the error for a status other than 200 names the method POST, the
    status, and the request URL cut at its first question mark: the URL in
    the error is a prefix of the request URL, contains no question mark, and
    is the whole URL when that has none. *)
Theorem Batch_status_error_hides_query (c : Client) (remote : string)
        (bReq : batchRequest) (tr : list event)
        (req : httpRequest) (res : httpResponse) :
  len bReq.(Objects) <> 0 ->
  built c remote bReq = inr req ->
  c.(Answer) (tr ++ [EvTraceBatch (len bReq.(Objects))]) remote req = inr res ->
  res.(StatusCode) <> 200%Z ->
  exists u,
    (fst (Batch c remote bReq tr)).(err)
    = Some (ErrInvalidStatus "POST" u res.(StatusCode))
    /\ ~ In "?"%char (list_ascii_of_string u)
    /\ String.prefix u req.(URL) = true
    /\ (~ In "?"%char (list_ascii_of_string req.(URL)) -> u = req.(URL)).
Proof.
  intros Hne Hb Ha Hs. exists (before_query req.(URL)).
  rewrite (Batch_answered c remote bReq tr req res Hne Hb Ha).
  destruct (Z.eqb_spec (StatusCode res) 200); [contradiction|]. simpl.
  apply built_inv in Hb. destruct Hb as [Hreq _].
  split; [rewrite Hreq; reflexivity|].
  split; [apply before_query_no_mark|].
  split; [apply before_query_prefix|apply before_query_id].
Qed.

Lemma Batch_status_error_hides_query_witness :
  exists u,
    (fst (Batch (Sample.tokened 403) "origin"
                (Sample.upload (Some [Sample.object "a1" 3]) (Some ["basic"]))
                [])).(err)
    = Some (ErrInvalidStatus "POST" u 403)
    /\ ~ In "?"%char (list_ascii_of_string u)
    /\ String.prefix u
         "https://lfs.example.com/repo?token=s3cret/objects/batch" = true
    /\ (~ In "?"%char
          (list_ascii_of_string
             "https://lfs.example.com/repo?token=s3cret/objects/batch") ->
        u = "https://lfs.example.com/repo?token=s3cret/objects/batch").
Proof.
  apply (Batch_status_error_hides_query (Sample.tokened 403) "origin"
           (Sample.upload (Some [Sample.object "a1" 3]) (Some ["basic"])) []
           {| Method := "POST";
              URL := "https://lfs.example.com/repo?token=s3cret/objects/batch";
              Body := JObject
                        [("operation", JString "upload");
                         ("objects",
                          JArray [JObject [("oid", JString "a1");
                                           ("size", JNumber 3)]])] |}
           {| StatusCode := 403; Payload := "{}" |}).
  - simpl. discriminate.
  - reflexivity.
  - reflexivity.
  - simpl. discriminate.
Defined.

(** The URL in that error, on a concrete request. *)
Example status_error_url :
  (fst (Batch (Sample.tokened 403) "origin"
              (Sample.upload (Some [Sample.object "a1" 3]) (Some ["basic"]))
              [])).(err)
  = Some (ErrInvalidStatus "POST" "https://lfs.example.com/repo" 403).
Proof. reflexivity. Qed.

(** X7: the transfers field is left out of a request exactly when the
    adapter-name list is nil, empty, or the single name "basic"; when it is
    present it is the whole list, in order. *)
Theorem transfers_omitted_iff (c : Client) (remote : string)
        (bReq : batchRequest) (req : httpRequest) :
  built c remote bReq = inr req ->
  (field "transfers" req.(Body) = None
   <-> len bReq.(TransferAdapterNames) = 0
       \/ bReq.(TransferAdapterNames) = Some ["basic"])
  /\ (forall v, field "transfers" req.(Body) = Some v ->
                v = JArray (map JString (elems bReq.(TransferAdapterNames)))).
Proof.
  intros Hb. apply built_inv in Hb. destruct Hb as [-> _]. simpl.
  unfold normalize.
  destruct (only_basic (TransferAdapterNames bReq)) eqn:E.
  - apply only_basic_spec in E. simpl. split.
    + split; [intros _; right; exact E|reflexivity].
    + discriminate.
  - unfold omitempty.
    destruct (len (TransferAdapterNames bReq)) eqn:El; simpl.
    + split; [split; [intros _; left; reflexivity|reflexivity]|discriminate].
    + split.
      * split; [discriminate|]. intros [H|H]; [discriminate H|].
        apply only_basic_spec in H. congruence.
      * intros v H. injection H as <-. reflexivity.
Qed.

Lemma transfers_omitted_iff_witness :
  (field "transfers"
         (JObject [("operation", JString "upload");
                   ("objects", JArray [JObject [("oid", JString "a1");
                                                ("size", JNumber 3)]])])
   = None
   <-> len (Some ["basic"]) = 0 \/ Some ["basic"] = Some ["basic"])
  /\ (forall v,
         field "transfers"
               (JObject [("operation", JString "upload");
                         ("objects", JArray [JObject [("oid", JString "a1");
                                                      ("size", JNumber 3)]])])
         = Some v ->
         v = JArray (map JString (elems (Some ["basic"])))).
Proof.
  apply (transfers_omitted_iff (Sample.answering 200) "origin"
           (Sample.upload (Some [Sample.object "a1" 3]) (Some ["basic"]))
           {| Method := "POST";
              URL := "https://lfs.example.com/origin/objects/batch";
              Body := JObject
                        [("operation", JString "upload");
                         ("objects",
                          JArray [JObject [("oid", JString "a1");
                                           ("size", JNumber 3)]])] |}).
  reflexivity.
Defined.

(** A 200 answer that does not decode: a batch response, the HTTP response
    and an error, all three. *)
Example garbled_answer_returns_all_three :
  let r := fst (Batch Sample.garbled "origin"
                      (Sample.upload (Some [Sample.object "a1" 3])
                                     (Some ["basic"])) []) in
  r.(bRes) = Some zeroResponse
  /\ r.(hRes) = Some {| StatusCode := 200; Payload := "{" |}
  /\ r.(err) = Some (ErrNew "unexpected end of JSON input").
Proof. repeat split. Qed.
